(** * The download-job server of [fastmcp_server.py]

    A shallow embedding of the in-memory job registry [JOBS], of the
    progress hook, of the background execution unit [_run_yt_dlp_job] and
    of the tools [download_video], [download_playlist],
    [get_download_status], [cancel_download] and [list_downloads],
    followed by the properties of the job life cycle.

    Conventions.
    - A Python [dict] whose keys come from outside (a progress sample, a
      tool result, [ydl_opts]) is a [gmap string pyval].  A job entry is
      always built by [_make_job_entry] and only ever assigned at its eight
      keys, so it is a record with one field per key; [job_items] gives it
      back as a dict where the code iterates over [job.items()].
    - Python floats are idealised as exact rationals ([Q]): no rounding
      error of the binary representation, no overflow, no [inf]/[nan].
      Nothing below therefore speaks of the last decimal of a stored
      percentage, and what is said of the hook storing a sample is said of
      samples whose integers are in the range of a float ([in_float_range]).
    - [uuid.uuid4()], the file system and the fetch collaborator (yt-dlp)
      are inputs: the fresh id is an argument, [os] is an interface, and the
      collaborator is the sequence of events it produces. *)

From Stdlib Require Import ZArith QArith Qround Qabs Lqa String Ascii List Sorted Lia.
From stdpp Require Import base option gmap strings list fin_maps.

(** ** Python values, exceptions and the library functions the server calls *)

Module Py.

#[warnings="-register-all"]
Inductive pyval :=
| PNone
| PBool (b : bool)
| PInt (n : Z)
| PFloat (q : Q)
| PStr (s : string)
| PDict (d : gmap string pyval)
| PTask.                        (* an [asyncio.Task] object, opaque as a value *)

Abbreviation dict := (gmap string pyval).

(** An instance of a subclass of [Exception]: qualified class name and
    [str(e)]. *)
Inductive exn := Exn (qualname : string) (msg : string).

Definition exn_qualname (e : exn) : string := let 'Exn t _ := e in t.
Definition exn_msg (e : exn) : string := let 'Exn _ m := e in m.

Inductive result (A : Type) :=
| Ok (a : A)
| Raise (e : exn).
Arguments Ok {A} a.
Arguments Raise {A} e.

#[global] Instance result_ret : MRet result := λ A a, Ok a.
#[global] Instance result_bind : MBind result := λ A B f m,
  match m with
  | Ok a => f a
  | Raise e => Raise e
  end.

(** [d.get(k)] and [d.get(k, dflt)]. *)
Definition get (d : dict) (k : string) : pyval := default PNone (d !! k).
Definition get_default (d : dict) (k : string) (dflt : pyval) : pyval :=
  default dflt (d !! k).

(** Truth value of an object. *)
Definition truthy (v : pyval) : bool :=
  match v with
  | PNone => false
  | PBool b => b
  | PInt n => negb (n =? 0)%Z
  | PFloat q => negb (Qeq_bool q 0)
  | PStr s => negb (String.eqb s "")
  | PDict d => negb (Nat.eqb (size d) 0)
  | PTask => true
  end.

(** [a or b]. *)
Definition py_or (a b : pyval) : pyval := if truthy a then a else b.

(** [v == s] for a string literal [s]. *)
Definition eq_str (v : pyval) (s : string) : bool :=
  match v with
  | PStr s' => String.eqb s' s
  | _ => false
  end.

(** The numeric value of an operand of [/]: [bool] is a subclass of [int]. *)
Definition as_number (v : pyval) : option Q :=
  match v with
  | PBool b => Some (if b then 1 else 0)%Q
  | PInt n => Some (inject_Z n)
  | PFloat q => Some q
  | _ => None
  end.

Definition TypeError (msg : string) : exn := Exn "TypeError" msg.
Definition ZeroDivisionError (msg : string) : exn := Exn "ZeroDivisionError" msg.

(** An operand of [/] that Python converts and divides without
    [OverflowError]: an [int] below [2 ** 1023] in magnitude, or any value
    that is not an [int]. *)
Definition in_float_range (v : pyval) : Prop :=
  match v with
  | PInt n => (Z.abs n < 2 ^ 1023)%Z
  | _ => True
  end.

(** [a / b] (true division); the result is a float. *)
Definition truediv (a b : pyval) : result Q :=
  match as_number a, as_number b with
  | Some x, Some y =>
      if Qeq_bool y 0 then Raise (ZeroDivisionError "division by zero")
      else Ok (x / y)%Q
  | _, _ => Raise (TypeError "unsupported operand type(s) for /")
  end.

(** Rounding to the nearest integer, ties to the even one. *)
Definition round_half_even (q : Q) : Z :=
  let f := Qfloor q in
  match (q - inject_Z f ?= 1 # 2)%Q with
  | Lt => f
  | Eq => if Z.even f then f else (f + 1)%Z
  | Gt => (f + 1)%Z
  end.

(** [round(x, 2)]: the multiple of 1/100 nearest to [x], in hundredths. *)
Definition round2 (x : Q) : Q := Qmake (round_half_even (x * 100)) 100.

(** [str.strip()] on ASCII text: the characters [str.isspace] accepts. *)
Definition isspace (c : ascii) : bool :=
  let n := nat_of_ascii c in
  ((9 <=? n) && (n <=? 13) || (28 <=? n) && (n <=? 32))%nat.

Fixpoint lstrip (s : string) : string :=
  match s with
  | EmptyString => EmptyString
  | String c s' => if isspace c then lstrip s' else s
  end.

Fixpoint rstrip (s : string) : string :=
  match s with
  | EmptyString => EmptyString
  | String c s' =>
      match rstrip s' with
      | EmptyString => if isspace c then EmptyString else String c EmptyString
      | r => String c r
      end
  end.

Definition strip (s : string) : string := rstrip (lstrip s).

Definition newline : string := String (ascii_of_nat 10) EmptyString.

(** [traceback.format_exception_only(type(e), e)] for an exception that is
    not a [SyntaxError] and carries no notes: the one line
    [<qualified class name>: <str(e)>], or the class name alone when
    [str(e)] is empty. *)
Definition format_exception_only (e : exn) : list string :=
  if String.eqb (exn_msg e) ""
  then [exn_qualname e +:+ newline]
  else [exn_qualname e +:+ ": " +:+ exn_msg e +:+ newline].

(** [''.join(l)]. *)
Definition join (l : list string) : string := foldr String.append "" l.

End Py.

(** ** The operating system, as far as the server uses it *)

(** [os.makedirs(p, exist_ok=True)] either succeeds or raises [OSError];
    the [os.path] functions are pure but depend on the platform and on the
    working directory. *)
Class OS := {
  os_makedirs : string → Py.result ();
  os_path_join : string → string → string;
  os_path_dirname : string → string;
  os_path_abspath : string → string;
}.

(** ** Job entries *)

Module Server.
Import Py.

(** The strings the code stores under ['status']. *)
Inductive Status :=
| Pending | Downloading | Completed | Error | Cancelled | CancelRequested.

#[global] Instance Status_eq_dec : EqDecision Status.
Proof. solve_decision. Defined.

Definition status_str (s : Status) : string :=
  match s with
  | Pending => "pending"
  | Downloading => "downloading"
  | Completed => "completed"
  | Error => "error"
  | Cancelled => "cancelled"
  | CancelRequested => "cancel_requested"
  end.

(** [status in ('completed', 'error', 'cancelled')]. *)
Definition terminal (s : Status) : bool :=
  match s with
  | Completed | Error | Cancelled => true
  | _ => false
  end.

(** The dict under ['progress']. *)
Record Progress := {
  percent : Q;
  downloaded_bytes : pyval;
  total_bytes : pyval;
}.

(** The [asyncio.Task] created for a job, with the part of the event loop's
    bookkeeping that [done()] and [cancel()] read and write.
    - [Scheduled]: created, its coroutine has not run yet;
    - [Running]: suspended at [await loop.run_in_executor(None, blocking)];
    - [Detached]: the task was cancelled at that [await]; the worker
      thread may still be inside yt-dlp;
    - [Done]: nothing of the job is running any more. *)
Inductive Phase := Scheduled | Running | Detached | Done.

#[global] Instance Phase_eq_dec : EqDecision Phase.
Proof. solve_decision. Defined.

Record Task := {
  ydl_opts : dict;          (* the second argument of [_run_yt_dlp_job] *)
  phase : Phase;
  must_cancel : bool;       (* [cancel()] was called and not yet delivered *)
}.

Record Job := {
  job_id : string;
  url : string;
  status : Status;
  progress : Progress;
  error_message : option string;
  output_path : option string;
  cancel_requested : bool;
  task : option Task;
}.

Definition set_status (s : Status) (j : Job) : Job :=
  {| job_id := job_id j; url := url j; status := s; progress := progress j;
     error_message := error_message j; output_path := output_path j;
     cancel_requested := cancel_requested j; task := task j |}.

Definition set_progress (p : Progress) (j : Job) : Job :=
  {| job_id := job_id j; url := url j; status := status j; progress := p;
     error_message := error_message j; output_path := output_path j;
     cancel_requested := cancel_requested j; task := task j |}.

Definition set_error_message (m : option string) (j : Job) : Job :=
  {| job_id := job_id j; url := url j; status := status j; progress := progress j;
     error_message := m; output_path := output_path j;
     cancel_requested := cancel_requested j; task := task j |}.

Definition set_output_path (o : option string) (j : Job) : Job :=
  {| job_id := job_id j; url := url j; status := status j; progress := progress j;
     error_message := error_message j; output_path := o;
     cancel_requested := cancel_requested j; task := task j |}.

Definition set_cancel_requested (b : bool) (j : Job) : Job :=
  {| job_id := job_id j; url := url j; status := status j; progress := progress j;
     error_message := error_message j; output_path := output_path j;
     cancel_requested := b; task := task j |}.

Definition set_task (t : option Task) (j : Job) : Job :=
  {| job_id := job_id j; url := url j; status := status j; progress := progress j;
     error_message := error_message j; output_path := output_path j;
     cancel_requested := cancel_requested j; task := t |}.

Definition set_percent (q : Q) (p : Progress) : Progress :=
  {| percent := q; downloaded_bytes := downloaded_bytes p;
     total_bytes := total_bytes p |}.

Definition set_phase (ph : Phase) (t : Task) : Task :=
  {| ydl_opts := ydl_opts t; phase := ph; must_cancel := must_cancel t |}.

(** [_make_job_entry]; [uuid] is the value of [str(uuid.uuid4())]. *)
Definition _make_job_entry (uuid : string) (url download_path : string) : Job :=
  {| job_id := uuid;
     url := url;
     status := Pending;
     progress := {| percent := 0; downloaded_bytes := PInt 0; total_bytes := PNone |};
     error_message := None;
     output_path := None;
     cancel_requested := false;
     task := None |}.

(** A job entry as the dict it is: what [job.items()] ranges over. *)
Definition opt_str (o : option string) : pyval :=
  match o with
  | None => PNone
  | Some s => PStr s
  end.

Definition progress_items (p : Progress) : dict :=
  {[ "percent" := PFloat (percent p);
     "downloaded_bytes" := downloaded_bytes p;
     "total_bytes" := total_bytes p ]}.

Definition job_items (j : Job) : dict :=
  {[ "job_id" := PStr (job_id j);
     "url" := PStr (url j);
     "status" := PStr (status_str (status j));
     "progress" := PDict (progress_items (progress j));
     "error_message" := opt_str (error_message j);
     "output_path" := opt_str (output_path j);
     "cancel_requested" := PBool (cancel_requested j);
     "task" := match task j with None => PNone | Some _ => PTask end ]}.

(** ** The progress hook *)

Definition DownloadError (msg : string) : exn := Exn "yt_dlp.utils.DownloadError" msg.

(** The body of the [try] of [progress_hook]: the job after the sample, or
    the exception that leaves the [try] before anything was stored. *)
Definition progress_hook_try (job : Job) (d : dict) : result Job :=
  let status := get d "status" in
  if eq_str status "downloading" then
    let total := py_or (get d "total_bytes") (get d "total_bytes_estimate") in
    let downloaded := get_default d "downloaded_bytes" (PInt 0) in
    percent ← (if truthy total
               then q ← truediv (get d "downloaded_bytes") total; mret (q * 100)%Q
               else mret 0%Q);
    mret (set_progress {| percent := round2 percent;
                          downloaded_bytes := downloaded;
                          total_bytes := total |} job)
  else if eq_str status "finished" then
    mret (set_progress (set_percent 100 (progress job)) job)
  else mret job.

(** [progress_hook(d)]: the job afterwards, and whether the hook returned or
    raised into yt-dlp. *)
Definition progress_hook (job : Job) (d : dict) : Job * result () :=
  let job :=
    match progress_hook_try job d with
    | Ok job' => job'
    | Raise _ => job          (* except Exception: pass *)
    end in
  if cancel_requested job
  then (job, Raise (DownloadError "Cancelled by user"))
  else (job, Ok ()).

(** ** The execution unit [_run_yt_dlp_job]

    The coroutine runs in three pieces, each atomic with respect to the
    event loop: from its start to the [await], and, when the fetch is over,
    either the rest of the [try] or the [except] clause. *)

Section ExecutionUnit.
Context `{OS}.

(** "Ensure download path exists": the code between the hook set-up and the
    [try]. An exception here leaves the coroutine. *)
Definition prepare_output (opts : dict) : result () :=
  match get opts "outtmpl" with
  | PStr outtmpl =>
      if truthy (PStr outtmpl) then
        let parent := os_path_dirname outtmpl in
        if truthy (PStr parent) then os_makedirs parent else mret ()
      else mret ()
  | v => if truthy v
         then Raise (TypeError "expected str, bytes or os.PathLike object")
         else mret ()
  end.

(** From the start of the coroutine to the [await]. *)
Definition run_begin (job : Job) (opts : dict) : result Job :=
  _ ← prepare_output opts;
  mret (set_status Downloading job).

(** The [except Exception as e] clause. *)
Definition run_except (job : Job) (e : exn) : Job :=
  if cancel_requested job then
    set_error_message (Some "Cancelled by user") (set_status Cancelled job)
  else
    set_error_message (Some (strip (join (format_exception_only e))))
                      (set_status Error job).

(** The rest of the [try] after the fetch returned. [os.path.abspath] is
    inside the [try], so its [TypeError] on a template that is not a string
    would be classified by the [except] clause. *)
Definition run_returned (job : Job) (opts : dict) : Job :=
  let job := set_status Completed job in
  match get opts "outtmpl" with
  | PStr outtmpl =>
      if truthy (PStr outtmpl)
      then set_output_path (Some (os_path_abspath outtmpl)) job
      else job
  | v => if truthy v
         then run_except job (TypeError "expected str, bytes or os.PathLike object")
         else job
  end.

(** ** The tools *)

(** [asyncio.create_task(_run_yt_dlp_job(job, ydl_opts))]. *)
Definition create_task (opts : dict) : Task :=
  {| ydl_opts := opts; phase := Scheduled; must_cancel := false |}.

(** [task.done()] and [task.cancel()]. *)
Definition done (t : Task) : bool :=
  match phase t with
  | Detached | Done => true
  | Scheduled | Running => false
  end.

Definition cancel (t : Task) : Task :=
  if done t then t
  else {| ydl_opts := ydl_opts t; phase := phase t; must_cancel := true |}.

Definition job_id_result (job_id : string) : dict := {[ "job_id" := PStr job_id ]}.

Definition download_video (uuid : string) (url download_path : string)
    (JOBS : gmap string Job) : result dict * gmap string Job :=
  let job := _make_job_entry uuid url download_path in
  let job_id := job_id job in
  let JOBS := <[job_id := job]> JOBS in
  match os_makedirs download_path with
  | Raise e => (Raise e, JOBS)
  | Ok _ =>
      let outtmpl := os_path_join download_path "%(title)s - %(id)s.%(ext)s" in
      let ydl_opts : dict :=
        {[ "outtmpl" := PStr outtmpl; "noplaylist" := PBool true;
           "quiet" := PBool true; "no_warnings" := PBool true ]} in
      let task := create_task ydl_opts in
      (Ok (job_id_result job_id), <[job_id := set_task (Some task) job]> JOBS)
  end.

Definition download_playlist (uuid : string) (url download_path : string)
    (JOBS : gmap string Job) : result dict * gmap string Job :=
  let job := _make_job_entry uuid url download_path in
  let job_id := job_id job in
  let JOBS := <[job_id := job]> JOBS in
  match os_makedirs download_path with
  | Raise e => (Raise e, JOBS)
  | Ok _ =>
      let outtmpl :=
        os_path_join (os_path_join download_path "%(playlist)s")
                     "%(playlist_index)s - %(title)s - %(id)s.%(ext)s" in
      let ydl_opts : dict :=
        {[ "outtmpl" := PStr outtmpl; "yesplaylist" := PBool true;
           "quiet" := PBool true; "no_warnings" := PBool true ]} in
      let task := create_task ydl_opts in
      (Ok (job_id_result job_id), <[job_id := set_task (Some task) job]> JOBS)
  end.

Definition not_found (job_id : string) : dict :=
  {[ "error" := PStr "job_id not found"; "job_id" := PStr job_id ]}.

(** [{k: v for k, v in job.items() if k != 'task'}]. *)
Definition clean_copy (job : Job) : dict :=
  filter (λ kv, kv.1 ≠ "task") (job_items job).

Definition get_download_status (job_id : string) (JOBS : gmap string Job) : dict :=
  match JOBS !! job_id with
  | None => not_found job_id
  | Some job => clean_copy job
  end.

Definition cannot_cancel (s : Status) (job_id : string) : dict :=
  {[ "status" := PStr "cannot_cancel";
     "reason" := PStr ("job already " +:+ status_str s);
     "job_id" := PStr job_id ]}.

Definition cancellation_requested (job_id : string) : dict :=
  {[ "status" := PStr "cancellation_requested"; "job_id" := PStr job_id ]}.

(** The writes of [cancel_download] to a job that is not over: the flag,
    the best-effort [task.cancel()], the status. *)
Definition cancel_job (job : Job) : Job :=
  let job := set_cancel_requested true job in
  let job :=
    match task job with
    | Some t => if negb (done t) then set_task (Some (cancel t)) job else job
    | None => job
    end in
  set_status CancelRequested job.

Definition cancel_download (job_id : string) (JOBS : gmap string Job)
    : dict * gmap string Job :=
  match JOBS !! job_id with
  | None => (not_found job_id, JOBS)
  | Some job =>
      if terminal (status job) then (cannot_cancel (status job) job_id, JOBS)
      else (cancellation_requested job_id, <[job_id := cancel_job job]> JOBS)
  end.

(** The order of [JOBS.values()] is the order of insertion; the list here
    is in the order of [map_to_list], the snapshots are the same. *)
Definition list_downloads (JOBS : gmap string Job) : list dict :=
  clean_copy <$> (map_to_list JOBS).*2.

(** ** The server as a transition system

    Everything that touches [JOBS] runs on the event loop, one piece at a
    time, except the progress hook, which yt-dlp calls from the worker
    thread. An event is one such piece. The new id of a submission is fresh
    ([uuid4]); a task event is enabled in the phases in which the event
    loop or yt-dlp can produce it.

    Once [cancel()] has been called on a task that is not done, the next
    step of its coroutine is [CancelledError] thrown into it, whatever the
    awaited future holds by then. [asyncio.CancelledError] derives from
    [BaseException] (Python 3.8 and later, which fastmcp requires), so the
    [except Exception] clause does not catch it: a task cancelled before
    its first step never runs its body, and a task cancelled at the
    [await] leaves the coroutine there ([TaskCancelled]) while the worker
    thread goes on alone. The outcome of the fetch reaches the coroutine
    ([FetchReturns], [FetchRaises] in phase [Running]) only when
    [cancel()] was not called.

    The hook stores the sample before it raises; the exception it raises
    travels through yt-dlp and ends the fetch in the worker thread
    ([FetchRaises]). *)

Inductive event :=
| CallDownloadVideo (uuid url download_path : string)
| CallDownloadPlaylist (uuid url download_path : string)
| CallGetDownloadStatus (job_id : string)
| CallCancelDownload (job_id : string)
| CallListDownloads
| TaskStarts (job_id : string)
| TaskCancelled (job_id : string)
| FetchProgress (job_id : string) (d : dict)
| FetchReturns (job_id : string)
| FetchRaises (job_id : string) (e : exn).

Definition in_phase (ph : Phase) (job : Job) (t : Task) : Job :=
  set_task (Some (set_phase ph t)) job.

(** What an event of the task of a job does to the job. *)
Definition task_step (ev : event) (job : Job) (t : Task) : option Job :=
  match ev, phase t with
  | TaskStarts _, Scheduled =>
      if must_cancel t then Some (in_phase Done job t)
      else match run_begin job (ydl_opts t) with
           | Ok job' => Some (in_phase Running job' t)
           | Raise _ => Some (in_phase Done job t)
           end
  | TaskCancelled _, Running =>
      if must_cancel t then Some (in_phase Detached job t) else None
  | FetchProgress _ d, (Running | Detached) => Some (progress_hook job d).1
  | FetchReturns _, Running =>
      if must_cancel t then None
      else Some (in_phase Done (run_returned job (ydl_opts t)) t)
  | FetchRaises _ e, Running =>
      if must_cancel t then None
      else Some (in_phase Done (run_except job e) t)
  | (FetchReturns _ | FetchRaises _ _), Detached => Some (in_phase Done job t)
  | _, _ => None
  end.

Definition on_task (job_id : string) (ev : event) (JOBS : gmap string Job)
    : option (gmap string Job) :=
  job ← JOBS !! job_id;
  t ← task job;
  job' ← task_step ev job t;
  Some (<[job_id := job']> JOBS).

Definition step (JOBS : gmap string Job) (ev : event) : option (gmap string Job) :=
  match ev with
  | CallDownloadVideo uuid url download_path =>
      match JOBS !! uuid with
      | None => Some (download_video uuid url download_path JOBS).2
      | Some _ => None
      end
  | CallDownloadPlaylist uuid url download_path =>
      match JOBS !! uuid with
      | None => Some (download_playlist uuid url download_path JOBS).2
      | Some _ => None
      end
  | CallGetDownloadStatus _ | CallListDownloads => Some JOBS
  | CallCancelDownload job_id => Some (cancel_download job_id JOBS).2
  | TaskStarts job_id | TaskCancelled job_id | FetchProgress job_id _
  | FetchReturns job_id | FetchRaises job_id _ => on_task job_id ev JOBS
  end.

Fixpoint exec (JOBS : gmap string Job) (evs : list event) : option (gmap string Job) :=
  match evs with
  | [] => Some JOBS
  | ev :: evs' => JOBS' ← step JOBS ev; exec JOBS' evs'
  end.

(** The registries the server can be in: it starts with [JOBS = {}]. *)
Inductive reachable : gmap string Job → Prop :=
| reachable_init : reachable ∅
| reachable_step JOBS ev JOBS' :
    reachable JOBS → step JOBS ev = Some JOBS' → reachable JOBS'.

(** ** The life cycle *)

(** The edges of the life cycle as it is drawn for the job status:
    [pending → downloading → {completed | error | cancelled}], and
    [downloading → cancel_requested → {cancelled | completed | error}]. *)
Definition lifecycle_edge (a b : Status) : bool :=
  match a, b with
  | Pending, Downloading => true
  | Downloading, (Completed | Error | Cancelled | CancelRequested) => true
  | CancelRequested, (Completed | Error | Cancelled) => true
  | _, _ => false
  end.

(** The edges the server takes: those, and [pending → cancel_requested]. *)
Definition status_edge (a b : Status) : bool :=
  lifecycle_edge a b ||
  match a, b with
  | Pending, CancelRequested => true
  | _, _ => false
  end.

(** What holds of every job of a reachable registry. *)
Definition job_inv (job : Job) : Prop :=
  (status job = Cancelled → cancel_requested job = true) ∧
  match task job with
  | None => True
  | Some t =>
      (∃ outtmpl, get (ydl_opts t) "outtmpl" = PStr outtmpl) ∧
      match phase t with
      | Scheduled => status job = if must_cancel t then CancelRequested else Pending
      | Running => status job = Downloading ∨ status job = CancelRequested
      | Detached | Done => True
      end
  end.

(** What a submission that drew the id [uuid] for [url] answers and leaves
    behind in the registry. *)
Definition registers (uuid url : string) (JOBS : gmap string Job)
    (out : result dict * gmap string Job) : Prop :=
  out.1 = Ok {[ "job_id" := PStr uuid ]} ∧
  (∃ job, out.2 !! uuid = Some job ∧
          job_id job = uuid ∧ Server.url job = url ∧ status job = Pending ∧
          cancel_requested job = false ∧
          ∃ t, task job = Some t ∧ phase t = Scheduled) ∧
  (∀ id, id ≠ uuid → out.2 !! id = JOBS !! id).

(** How one event changes the entry of one job id. *)
Inductive job_step : option Job → option Job → Prop :=
| job_same o : job_step o o
| job_new uuid url download_path :
    job_step None (Some (_make_job_entry uuid url download_path))
| job_new_task uuid url download_path opts outtmpl :
    get opts "outtmpl" = PStr outtmpl →
    job_step None
      (Some (set_task (Some (create_task opts)) (_make_job_entry uuid url download_path)))
| job_cancel job :
    terminal (status job) = false → job_step (Some job) (Some (cancel_job job))
| job_task ev job t job' :
    task job = Some t → task_step ev job t = Some job' →
    job_step (Some job) (Some job').

(** The percentages stored by the hook over the samples of one fetch; the
    fetch is over when the hook raises. *)
Fixpoint percents (job : Job) (ds : list dict) : list Q :=
  match ds with
  | [] => []
  | d :: ds' =>
      let '(job', r) := progress_hook job d in
      percent (progress job') ::
        match r with
        | Ok _ => percents job' ds'
        | Raise _ => []
        end
  end.

(** The total of a sample as the hook reads it. *)
Definition sample_total (d : dict) : pyval :=
  py_or (get d "total_bytes") (get d "total_bytes_estimate").

(** A sample of a steady download of [t] bytes that stands at [a] bytes:
    a ["downloading"] sample with these two counts, or the ["finished"]
    sample, which stands at [t]. *)
Definition stands_at (t : Z) (d : dict) (a : Z) : Prop :=
  (get d "status" = PStr "downloading" ∧
   get d "downloaded_bytes" = PInt a ∧ sample_total d = PInt t) ∨
  (get d "status" = PStr "finished" ∧ a = t).

End ExecutionUnit.

(** ** What the fields of a job say about each other *)

(** The request and the task: a job with a cancellation request has the
    status [cancel_requested]; as long as [cancel()] was not called on a
    task that is scheduled or running its job has no cancellation request;
    and the job of a task that was cancelled has one. *)
Definition request_stands (job : Job) : Prop :=
  (cancel_requested job = true → status job = CancelRequested) ∧
  match task job with
  | Some t =>
      (phase t = Scheduled ∨ phase t = Running →
       must_cancel t = false → cancel_requested job = false) ∧
      (must_cancel t = true ∨ phase t = Detached → cancel_requested job = true)
  | None => True
  end.

(** The flag and the status: a job that is [pending], [downloading] or in
    [error] has no cancellation request, one that is [cancel_requested] or
    [cancelled] has one, and a [completed] job may have either. *)
Definition flag_agrees (job : Job) : Prop :=
  match status job with
  | Pending | Downloading | Error => cancel_requested job = false
  | CancelRequested | Cancelled => cancel_requested job = true
  | Completed => True
  end.

(** The message and the output path: there is a message exactly on a job
    in [error] or [cancelled], and an output path only on a [completed]
    one. *)
Definition results_agree (job : Job) : Prop :=
  (is_Some (error_message job) ↔ status job = Error ∨ status job = Cancelled) ∧
  (is_Some (output_path job) → status job = Completed).

(** The events of the task of a job. *)
Definition task_events (job_id : string) (ev : event) : Prop :=
  ev = TaskStarts job_id ∨ ev = TaskCancelled job_id ∨
  (∃ d, ev = FetchProgress job_id d) ∨ ev = FetchReturns job_id ∨
  (∃ e, ev = FetchRaises job_id e).

(** What a submission that drew the id [uuid] leaves behind when it ends
    with the exception [e]: a [pending] job without a task, for which no
    event of a task is enabled. *)
Definition orphaned `{OS} (uuid url : string) (e : exn)
    (out : result dict * gmap string Job) : Prop :=
  out.1 = Raise e ∧
  (∃ job, out.2 !! uuid = Some job ∧ Server.url job = url ∧
          status job = Pending ∧ task job = None) ∧
  (∀ ev, task_events uuid ev → step out.2 ev = None).

(** The snapshot of a job that was just registered for [url] under
    [uuid]. *)
Definition reports_pending (uuid url : string) (snap : dict) : Prop :=
  snap !! "job_id" = Some (PStr uuid) ∧
  snap !! "url" = Some (PStr url) ∧
  snap !! "status" = Some (PStr "pending") ∧
  snap !! "progress" =
    Some (PDict {[ "percent" := PFloat 0; "downloaded_bytes" := PInt 0;
                   "total_bytes" := PNone ]}) ∧
  snap !! "error_message" = Some PNone ∧
  snap !! "output_path" = Some PNone ∧
  snap !! "cancel_requested" = Some (PBool false) ∧
  snap !! "task" = None.

End Server.

(** ** The test client of [mcp_client_test.py] *)

Module Client.
Import Py Server.

Definition KeyError (key : string) : exn := Exn "KeyError" ("'" +:+ key +:+ "'").
Definition AttributeError (msg : string) : exn := Exn "AttributeError" msg.

(** [d[k]]. *)
Definition getitem (d : dict) (k : string) : result pyval :=
  match d !! k with
  | Some v => Ok v
  | None => Raise (KeyError k)
  end.

(** [v in ('completed', 'error', 'cancelled')]. *)
Definition is_final (v : pyval) : bool :=
  existsb (eq_str v) ["completed"; "error"; "cancelled"].

(** One turn of the [while True] loop of [main], up to the test of the
    [if]: the snapshot, and whether the loop ends with it. The arguments
    of [print] are evaluated, the text it writes is not modelled. *)
Definition poll (job_id : string) (JOBS : gmap string Job) : result (dict * bool) :=
  let status := get_download_status job_id JOBS in
  s ← getitem status "status";
  p ← getitem status "progress";
  _ ← match p with
      | PDict _ => Ok ()
      | _ => Raise (AttributeError "object has no attribute 'get'")
      end;
  mret (status, is_final s).

(** The loop of [main] over the registries it finds at its successive
    turns, [asyncio.sleep(2)] lying between two of them: the snapshot it
    ends with, or [None] when it is still polling after the last one. *)
Fixpoint main_loop (job_id : string) (observed : list (gmap string Job))
    : result (option dict) :=
  match observed with
  | [] => Ok None
  | JOBS :: later =>
      r ← poll job_id JOBS;
      let '(status, final) := r : dict * bool in
      if final then Ok (Some status) else main_loop job_id later
  end.

(** The client is still polling: the job is there and not over. *)
Definition still_polling (job_id : string) (JOBS : gmap string Job) : Prop :=
  ∃ job, JOBS !! job_id = Some job ∧ terminal (status job) = false.

End Client.

(** ** Concrete inputs *)

Module Examples.
Import Py Server.

Fixpoint has_slash (s : string) : bool :=
  match s with
  | EmptyString => false
  | String c s' => Ascii.eqb c "/" || has_slash s'
  end.

Fixpoint before_last_slash (s : string) : string :=
  match s with
  | EmptyString => EmptyString
  | String c s' => if has_slash s' then String c (before_last_slash s') else EmptyString
  end.

(** A POSIX-like system, working directory [/srv], on which every
    directory can be created. *)
Definition writable : OS :=
  {| os_makedirs := λ _, Ok ();
     os_path_join := λ a b, a +:+ "/" +:+ b;
     os_path_dirname := before_last_slash;
     os_path_abspath := λ p, "/srv/" +:+ p |}.

Definition sample_url : string := "https://www.youtube.com/watch?v=2Vv-BfVoq4g".

(** The registry after [download_video(sample_url)] drew the id [job-1],
    and after an immediate [cancel_download]. *)
Definition submitted : gmap string Job :=
  (download_video (H := writable) "job-1" sample_url "./downloads" ∅).2.

Definition submitted_cancelled : gmap string Job :=
  (cancel_download "job-1" submitted).2.

(** A run in which the fetch fails. *)
Definition failed_run : list event :=
  [CallDownloadVideo "job-1" sample_url "./downloads";
   TaskStarts "job-1";
   FetchRaises "job-1" (DownloadError "network unreachable")].

(** A run in which a cancellation is requested during the fetch: the task
    is cancelled at its [await], the next call of the hook raises in the
    worker thread and ends the fetch there. *)
Definition cancelled_run : list event :=
  [CallDownloadVideo "job-1" sample_url "./downloads";
   TaskStarts "job-1";
   CallCancelDownload "job-1";
   TaskCancelled "job-1";
   FetchProgress "job-1" {[ "status" := PStr "downloading";
                            "downloaded_bytes" := PInt 300;
                            "total_bytes" := PInt 1000 ]};
   FetchRaises "job-1" (DownloadError "Cancelled by user")].

(** Three samples at 30, 70 and 100 percent, then success. *)
Definition completed_run : list event :=
  [CallDownloadVideo "job-1" sample_url "./downloads";
   TaskStarts "job-1";
   FetchProgress "job-1" {[ "status" := PStr "downloading";
                            "downloaded_bytes" := PInt 300;
                            "total_bytes" := PInt 1000 ]};
   FetchProgress "job-1" {[ "status" := PStr "downloading";
                            "downloaded_bytes" := PInt 700;
                            "total_bytes" := PInt 1000 ]};
   FetchProgress "job-1" {[ "status" := PStr "finished" ]};
   FetchReturns "job-1"].

(** A cancellation that arrives before the task has run. *)
Definition cancelled_before_start : list event :=
  [CallDownloadVideo "job-1" sample_url "./downloads";
   CallCancelDownload "job-1";
   TaskStarts "job-1"].

(** Progress samples. *)
Definition downloading_sample (a t : Z) : dict :=
  {[ "status" := PStr "downloading";
     "downloaded_bytes" := PInt a;
     "total_bytes" := PInt t ]}.

Definition sample_without_total (a : Z) : dict :=
  {[ "status" := PStr "downloading"; "downloaded_bytes" := PInt a ]}.

Definition sample_without_counts : dict :=
  {[ "status" := PStr "downloading" ]}.

Definition finished_sample : dict :=
  {[ "status" := PStr "finished" ]}.

(** The registries at the end of [failed_run] and of [cancelled_run]. *)
Definition failed_registry : gmap string Job :=
  default ∅ (exec (H := writable) ∅ failed_run).

Definition cancelled_registry : gmap string Job :=
  default ∅ (exec (H := writable) ∅ cancelled_run).

Definition new_job : Job := _make_job_entry "job-1" sample_url "./downloads".

(** The job after a first sample of 500 bytes out of 1000. *)
Definition half_way : Job := (progress_hook new_job (downloading_sample 500 1000)).1.

Definition scheduled_job : Job := default new_job (submitted !! "job-1").

(** The registry and the job of [cancelled_run] before its last event:
    the task was cancelled, the hook has raised in the worker thread. *)
Definition detached_registry : gmap string Job :=
  default ∅ (exec (H := writable) ∅ (take 5 cancelled_run)).

Definition detached_job : Job := default new_job (detached_registry !! "job-1").

(** The jobs at the end of [failed_run] and of [cancelled_run]. *)
Definition failed_job : Job := default new_job (failed_registry !! "job-1").

Definition cancelled_job : Job := default new_job (cancelled_registry !! "job-1").

(** A system on which no directory can be created. *)
Definition read_only : OS :=
  {| os_makedirs := λ _, Raise (Exn "PermissionError" "[Errno 13] Permission denied");
     os_path_join := λ a b, a +:+ "/" +:+ b;
     os_path_dirname := before_last_slash;
     os_path_abspath := λ p, "/srv/" +:+ p |}.

(** A system on which the download directory exists and nothing can be
    created below it. *)
Definition no_subdirectories : OS :=
  {| os_makedirs := λ p,
       if String.eqb p "./downloads" then Ok ()
       else Raise (Exn "PermissionError" "[Errno 13] Permission denied");
     os_path_join := λ a b, a +:+ "/" +:+ b;
     os_path_dirname := before_last_slash;
     os_path_abspath := λ p, "/srv/" +:+ p |}.




(** The registries of [completed_run], one after each event. *)
Definition completed_run_registries : list (gmap string Job) :=
  (λ n, default ∅ (exec (H := writable) ∅ (take n completed_run))) <$> seq 1 6.

(** The job cancelled right after its submission, and the registry after
    the first step of its task. *)
Definition cancelled_pending_job : Job :=
  default new_job (submitted_cancelled !! "job-1").

Definition cancelled_then_started : gmap string Job :=
  default ∅ (step (H := writable) submitted_cancelled (TaskStarts "job-1")).

(** A playlist submitted where nothing can be created below the download
    directory. *)
Definition playlist_submitted : gmap string Job :=
  (download_playlist (H := no_subdirectories) "job-1" sample_url "./downloads" ∅).2.

Definition playlist_job : Job := default new_job (playlist_submitted !! "job-1").

Definition playlist_task : Task := default (create_task ∅) (task playlist_job).

Definition playlist_outtmpl : string :=
  "./downloads/%(playlist)s/%(playlist_index)s - %(title)s - %(id)s.%(ext)s".

(** More samples: a byte count without its total replaced by an estimate,
    and a total without a byte count. *)
Definition estimated_sample : dict :=
  {[ "status" := PStr "downloading";
     "downloaded_bytes" := PInt 500;
     "total_bytes_estimate" := PInt 2000 ]}.

Definition total_without_count : dict :=
  {[ "status" := PStr "downloading"; "total_bytes" := PInt 1000 ]}.

End Examples.

(** ** Facts about rounding and stripping *)

Module PyFacts.
Import Py.

Lemma round_half_even_cases (q : Q) :
  let f := Qfloor q in
  (inject_Z f <= q)%Q ∧ (q < inject_Z f + 1)%Q ∧
  ((q - inject_Z f < 1 # 2)%Q ∧ round_half_even q = f ∨
   (q - inject_Z f == 1 # 2)%Q ∧ round_half_even q = (if Z.even f then f else (f + 1)%Z) ∨
   (1 # 2 < q - inject_Z f)%Q ∧ round_half_even q = (f + 1)%Z).
Proof.
  intros f. split; [apply Qfloor_le|]. split.
  - pose proof (Qlt_floor q) as Hlt. rewrite inject_Z_plus in Hlt. exact Hlt.
  - unfold round_half_even. fold f.
    destruct (q - inject_Z f ?= 1 # 2)%Q eqn:E.
    + right; left. split; [by apply Qeq_alt|done].
    + left. split; [by apply Qlt_alt|done].
    + right; right. split; [|done].
      apply Qgt_alt in E. exact E.
Qed.

Lemma round_half_even_between (q : Q) :
  (Qfloor q <= round_half_even q <= Qfloor q + 1)%Z.
Proof.
  destruct (round_half_even_cases q) as (_ & _ & [[_ ->]|[[_ ->]|[_ ->]]]);
    try destruct (Z.even _); lia.
Qed.

Lemma round_half_even_comp (x y : Q) :
  (x == y)%Q → round_half_even x = round_half_even y.
Proof.
  intros E. unfold round_half_even.
  rewrite (Qfloor_comp x y E).
  assert (x - inject_Z (Qfloor y) == y - inject_Z (Qfloor y))%Q as E' by (rewrite E; reflexivity).
  by rewrite (Qcompare_comp _ _ E' (1 # 2) (1 # 2) (Qeq_refl _)).
Qed.

Lemma round_half_even_mono (x y : Q) :
  (x <= y)%Q → (round_half_even x <= round_half_even y)%Z.
Proof.
  intros Hxy.
  pose proof (Qfloor_resp_le x y Hxy) as Hf.
  destruct (Z.eq_dec (Qfloor x) (Qfloor y)) as [Heq|Hne].
  - destruct (round_half_even_cases x) as (_ & _ & Hx).
    destruct (round_half_even_cases y) as (_ & _ & Hy).
    cbv zeta in Hx, Hy. rewrite Heq in Hx.
    destruct Hx as [[Hx ->]|[[Hx ->]|[Hx ->]]];
      destruct Hy as [[Hy ->]|[[Hy ->]|[Hy ->]]];
      try destruct (Z.even _); try lia; exfalso; lra.
  - pose proof (round_half_even_between x). pose proof (round_half_even_between y). lia.
Qed.

Lemma round2_comp (x y : Q) : (x == y)%Q → round2 x = round2 y.
Proof.
  intros E. unfold round2. f_equal. apply round_half_even_comp. by rewrite E.
Qed.

Lemma round2_mono (x y : Q) : (x <= y)%Q → (round2 x <= round2 y)%Q.
Proof.
  intros Hxy. unfold round2, Qle. simpl.
  apply Z.mul_le_mono_nonneg_r; [lia|].
  apply round_half_even_mono. lra.
Qed.

Lemma round_half_even_inject (n : Z) : round_half_even (inject_Z n) = n.
Proof.
  destruct (round_half_even_cases (inject_Z n)) as (_ & _ & Hc).
  cbv zeta in Hc. rewrite Qfloor_Z in Hc.
  destruct Hc as [[_ ->]|[[Hc _]|[Hc _]]]; [done|exfalso; lra..].
Qed.

Lemma round2_100 : (round2 100 == 100)%Q.
Proof. reflexivity. Qed.

Lemma round2_0 : (round2 0 == 0)%Q.
Proof. reflexivity. Qed.

Lemma lstrip_length (s : string) : String.length (lstrip s) ≤ String.length s.
Proof.
  induction s as [|c s IH]; simpl; [done|].
  destruct (isspace c); simpl; lia.
Qed.

Lemma lstrip_fixed_app (s rest : string) :
  s ≠ "" → lstrip s = s → lstrip (s +:+ rest) = s +:+ rest.
Proof.
  destruct s as [|c s]; [done|]. intros _. simpl.
  destruct (isspace c); [|done]. intros E.
  pose proof (lstrip_length s) as Hl. rewrite E in Hl. simpl in Hl. lia.
Qed.

Lemma rstrip_app (s rest : string) :
  rstrip rest ≠ "" → rstrip (s +:+ rest) = s +:+ rstrip rest.
Proof.
  intros Hne. induction s as [|c s IH]; simpl; [done|].
  rewrite IH. change (String c s +:+ rstrip rest) with (String c (s +:+ rstrip rest)).
  destruct (s +:+ rstrip rest) eqn:E; [|done].
  destruct s; simpl in E; [done|discriminate].
Qed.

Lemma append_empty_r (s : string) : s +:+ "" = s.
Proof.
  induction s as [|c s IH]; [done|].
  change (String c (s +:+ "") = String c s). by rewrite IH.
Qed.

Lemma join_format_exception_only (qualname msg : string) :
  msg ≠ "" →
  join (format_exception_only (Exn qualname msg)) = qualname +:+ ": " +:+ msg +:+ newline.
Proof.
  intros Hne. unfold format_exception_only. simpl.
  destruct (String.eqb msg "") eqn:E; [by apply String.eqb_eq in E|].
  simpl. apply append_empty_r.
Qed.

End PyFacts.

(** ** Properties of the server *)

Module Properties.
Import Py Server PyFacts.

Section Properties.
Context `{OS}.

Ltac unfold_result := cbv [mret mbind result_ret result_bind] in *.

(** *** The progress hook *)

Lemma progress_hook_try_fields (job job' : Job) (d : dict) :
  progress_hook_try job d = Ok job' →
  ∃ p, job' = set_progress p job.
Proof.
  unfold progress_hook_try. intros Hd.
  destruct (eq_str (get d "status") "downloading").
  - destruct (truthy _); [destruct (truediv _ _)|]; unfold_result;
      simplify_eq; eauto.
  - destruct (eq_str (get d "status") "finished"); unfold_result;
      injection Hd as <-; eauto.
    exists (progress job). by destruct job.
Qed.

Lemma progress_hook_fields (job : Job) (d : dict) :
  ∃ p, (progress_hook job d).1 = set_progress p job.
Proof.
  unfold progress_hook.
  destruct (progress_hook_try job d) as [job'|e] eqn:E.
  - apply progress_hook_try_fields in E as [p ->]. exists p.
    by destruct (cancel_requested _).
  - exists (progress job). destruct (cancel_requested job); by destruct job.
Qed.

Lemma progress_hook_result (job : Job) (d : dict) :
  (progress_hook job d).2 =
    if cancel_requested job then Raise (DownloadError "Cancelled by user") else Ok ().
Proof.
  unfold progress_hook.
  destruct (progress_hook_try job d) as [job'|e] eqn:E.
  - apply progress_hook_try_fields in E as [p ->]. simpl.
    by destruct (cancel_requested job).
  - by destruct (cancel_requested job).
Qed.

(** *** The life cycle *)

Lemma step_job_step (JOBS JOBS' : gmap string Job) (ev : event) (id : string) :
  step JOBS ev = Some JOBS' → job_step (JOBS !! id) (JOBS' !! id).
Proof.
  assert (Htask : ∀ job_id, on_task job_id ev JOBS = Some JOBS' →
                            job_step (JOBS !! id) (JOBS' !! id)).
  { intros job_id. unfold on_task. intros Hs.
    destruct (JOBS !! job_id) as [job|] eqn:Hj; simpl in Hs; [|done].
    destruct (task job) as [t|] eqn:Ht; simpl in Hs; [|done].
    destruct (task_step ev job t) as [job'|] eqn:Hts; simpl in Hs; [|done].
    simplify_eq. destruct (decide (job_id = id)) as [->|Hne].
    - rewrite lookup_insert_eq, Hj. by eapply job_task.
    - rewrite lookup_insert_ne by done. constructor. }
  assert (Hnew : ∀ uuid (job : Job), JOBS !! uuid = None →
    job_step None (Some job) →
    job_step (JOBS !! id) (<[uuid := job]> JOBS !! id)).
  { intros uuid job Hfresh Hjs. destruct (decide (uuid = id)) as [->|Hne].
    - by rewrite lookup_insert_eq, Hfresh.
    - rewrite lookup_insert_ne by done. constructor. }
  destruct ev as [uuid url download_path|uuid url download_path|jid|jid|
                  |jid|jid|jid d|jid|jid e]; simpl; try apply Htask.
  - destruct (JOBS !! uuid) eqn:Hfresh; [done|]. intros [= <-].
    unfold download_video. simpl.
    destruct (os_makedirs download_path); simpl.
    + rewrite insert_insert_eq. apply Hnew; [done|].
      eapply job_new_task. unfold get. by rewrite lookup_insert_eq.
    + apply Hnew; [done|]. constructor.
  - destruct (JOBS !! uuid) eqn:Hfresh; [done|]. intros [= <-].
    unfold download_playlist. simpl.
    destruct (os_makedirs download_path); simpl.
    + rewrite insert_insert_eq. apply Hnew; [done|].
      eapply job_new_task. unfold get. by rewrite lookup_insert_eq.
    + apply Hnew; [done|]. constructor.
  - intros [= <-]. constructor.
  - intros [= <-]. unfold cancel_download.
    destruct (JOBS !! jid) as [job|] eqn:Hj; simpl; [|constructor].
    destruct (terminal (status job)) eqn:Hterm; simpl; [constructor|].
    destruct (decide (jid = id)) as [->|Hne].
    + rewrite lookup_insert_eq, Hj. by constructor.
    + rewrite lookup_insert_ne by done. constructor.
  - intros [= <-]. constructor.
Qed.

Lemma status_edge_terminal (a b : Status) :
  terminal a = true → status_edge a b = false.
Proof. by destruct a, b. Qed.

Lemma run_returned_str (job : Job) (opts : dict) (outtmpl : string) :
  get opts "outtmpl" = PStr outtmpl →
  status (run_returned job opts) = Completed ∧
  cancel_requested (run_returned job opts) = cancel_requested job ∧
  task (run_returned job opts) = task job.
Proof.
  intros Ho. unfold run_returned. rewrite Ho.
  by destruct (truthy (PStr outtmpl)).
Qed.

Lemma run_except_status (job : Job) (e : exn) :
  status (run_except job e) = (if cancel_requested job then Cancelled else Error) ∧
  cancel_requested (run_except job e) = cancel_requested job ∧
  task (run_except job e) = task job.
Proof. unfold run_except. destruct job as [? ? ? ? ? ? [] ?]; done. Qed.

Lemma run_begin_status (job job' : Job) (opts : dict) :
  run_begin job opts = Ok job' → job' = set_status Downloading job.
Proof.
  unfold run_begin. destruct (prepare_output opts); unfold_result; congruence.
Qed.

Lemma job_step_inv (o o' : option Job) :
  job_step o o' →
  (∀ job, o = Some job → job_inv job) →
  ∀ job', o' = Some job' → job_inv job'.
Proof.
  intros Hs Hinv job' Ho'.
  destruct Hs as [o|uuid url path|uuid url path opts outtmpl Hopts|job Hterm
                 |ev job t job1 Ht Hts].
  - by apply Hinv.
  - injection Ho' as <-. by split.
  - injection Ho' as <-. split; [done|]. simpl. eauto.
  - injection Ho' as <-. destruct (Hinv job eq_refl) as [_ Hj].
    unfold cancel_job. split; [done|].
    destruct job as [? ? st ? ? ? ? [[opts ph mc]|]]; [|done].
    destruct Hj as [Hopts Hph]. by destruct ph; simpl in *; auto.
  - injection Ho' as <-. destruct (Hinv job eq_refl) as [Hc Hj].
    rewrite Ht in Hj. destruct Hj as [[outtmpl Hopts] Hph].
    unfold task_step in Hts.
    destruct ev as [| | | | |jid|jid|jid d|jid|jid e], (phase t) eqn:Hp;
      try discriminate.
    + destruct (must_cancel t).
      * injection Hts as <-. split; [done|]. simpl. eauto.
      * destruct (run_begin job (ydl_opts t)) as [job1'|] eqn:Hb;
          injection Hts as <-; (split; [|simpl; rewrite ?Hp; eauto]).
        -- apply run_begin_status in Hb as ->. done.
        -- apply run_begin_status in Hb as ->. simpl. eauto.
        -- done.
    + destruct (must_cancel t); [|done]. injection Hts as <-.
      split; [done|]. simpl. eauto.
    + injection Hts as <-.
      destruct (progress_hook_fields job d) as [p ->]. split; [done|].
      simpl. rewrite Ht. simpl. rewrite Hp. eauto.
    + injection Hts as <-.
      destruct (progress_hook_fields job d) as [p ->]. split; [done|].
      simpl. rewrite Ht. simpl. rewrite Hp. eauto.
    + destruct (must_cancel t); [done|]. injection Hts as <-.
      destruct (run_returned_str job _ _ Hopts) as (Hst & Hcr & _).
      split; simpl; [congruence|eauto].
    + injection Hts as <-. split; [done|]. simpl. eauto.
    + destruct (must_cancel t); [done|]. injection Hts as <-.
      destruct (run_except_status job e) as (Hst & Hcr & _).
      split; simpl; [|eauto]. rewrite Hst, Hcr.
      by destruct (cancel_requested job).
    + injection Hts as <-. split; [done|]. simpl. eauto.
Qed.

Lemma reachable_inv (JOBS : gmap string Job) :
  reachable JOBS → ∀ id job, JOBS !! id = Some job → job_inv job.
Proof.
  induction 1 as [|JOBS ev JOBS' _ IH Hstep]; intros id job Hj.
  - by rewrite lookup_empty in Hj.
  - eapply job_step_inv; [exact (step_job_step _ _ _ id Hstep)| |done].
    intros job0 Hj0. by eapply IH.
Qed.

Lemma exec_reachable (JOBS : gmap string Job) (evs : list event)
    (JOBS' : gmap string Job) :
  reachable JOBS → exec JOBS evs = Some JOBS' → reachable JOBS'.
Proof.
  revert JOBS. induction evs as [|ev evs IH]; intros JOBS Hr He; simpl in He.
  - by injection He as <-.
  - destruct (step JOBS ev) as [JOBS1|] eqn:Hs; [|done].
    apply (IH JOBS1); [by eapply reachable_step|done].
Qed.

Lemma job_step_status (job : Job) (o' : option Job) :
  job_step (Some job) o' → job_inv job →
  ∃ job', o' = Some job' ∧
    (status job' = status job ∨ status_edge (status job) (status job') = true).
Proof.
  intros Hs [_ Hj].
  inversion Hs as [o| | |job0 Hterm|ev job0 t job1 Ht Hts]; subst.
  - eauto.
  - eexists; split; [done|]. unfold cancel_job. simpl.
    destruct (status job); simpl in *; auto; discriminate.
  - eexists; split; [done|].
    rewrite Ht in Hj. destruct Hj as [[outtmpl Hopts] Hph].
    unfold task_step in Hts.
    destruct ev as [| | | | |jid|jid|jid d|jid|jid e], (phase t) eqn:Hp;
      try discriminate.
    + destruct (must_cancel t); [injection Hts as <-; auto|].
      destruct (run_begin job (ydl_opts t)) as [job1'|] eqn:Hb;
        injection Hts as <-; [|auto].
      apply run_begin_status in Hb as ->. simpl. rewrite Hph. auto.
    + destruct (must_cancel t); [|done]. injection Hts as <-. auto.
    + injection Hts as <-. destruct (progress_hook_fields job d) as [p ->]. auto.
    + injection Hts as <-. destruct (progress_hook_fields job d) as [p ->]. auto.
    + destruct (must_cancel t); [done|]. injection Hts as <-.
      destruct (run_returned_str job _ _ Hopts) as (Hst & _). simpl.
      rewrite Hst. destruct Hph as [-> | ->]; auto.
    + injection Hts as <-. auto.
    + destruct (must_cancel t); [done|]. injection Hts as <-.
      destruct (run_except_status job e) as (Hst & _). simpl. rewrite Hst.
      destruct Hph as [-> | ->]; destruct (cancel_requested job); auto.
    + injection Hts as <-. auto.
Qed.

Lemma cancel_job_fields (job : Job) :
  status (cancel_job job) = CancelRequested ∧
  cancel_requested (cancel_job job) = true.
Proof. by destruct job as [? ? ? ? ? ? ? [[? [] ?]|]]. Qed.

(** *** The job life cycle *)

(** C1 (amended). In every run of the server, an event leaves the status of
    a job as it is or moves it along an edge of the life cycle
    [pending → downloading → {completed | error | cancelled}] with
    [cancel_requested] between [downloading] and the final states, or
    along [pending → cancel_requested]; a job enters the registry as
    [pending] and never leaves it; and once the status is [completed],
    [error] or [cancelled] no event changes it. *)
Theorem status_follows_life_cycle
    (JOBS JOBS' : gmap string Job) (ev : event) (id : string) :
  reachable JOBS → step JOBS ev = Some JOBS' →
  match JOBS !! id, JOBS' !! id with
  | None, None => True
  | None, Some job' => status job' = Pending
  | Some job, None => False
  | Some job, Some job' =>
      (status job' = status job ∨ status_edge (status job) (status job') = true) ∧
      (terminal (status job) = true → status job' = status job)
  end.
Proof.
  intros Hr Hs. pose proof (step_job_step _ _ _ id Hs) as Hjs.
  destruct (JOBS !! id) as [job|] eqn:Hj.
  - destruct (job_step_status job _ Hjs (reachable_inv _ Hr _ _ Hj))
      as (job' & -> & Hst).
    split; [done|]. intros Hterm. destruct Hst as [|He]; [done|].
    by rewrite status_edge_terminal in He.
  - inversion Hjs; done.
Qed.

(** C5. On a job that is over [cancel_download] returns the answer
    [{"status": "cannot_cancel", "reason": "job already <status>",
    "job_id": id}] and leaves the registry as it is; on any other job it
    returns [{"status": "cancellation_requested", "job_id": id}] and sets
    [cancel_requested], and a second call returns that answer again; a
    call on a job that finished meanwhile is the first case. The two
    answers differ, and neither carries the ["error"] key of the answer
    for an unknown id. *)
Theorem cancel_download_results (JOBS : gmap string Job) (id : string) (job : Job) :
  JOBS !! id = Some job →
  let accepted : dict :=
    {[ "status" := PStr "cancellation_requested"; "job_id" := PStr id ]} in
  let already (s : Status) : dict :=
    {[ "status" := PStr "cannot_cancel";
       "reason" := PStr ("job already " +:+ status_str s);
       "job_id" := PStr id ]} in
  let '(r, JOBS') := cancel_download id JOBS in
  r !! "error" = None ∧
  (∀ s, accepted ≠ already s) ∧
  (terminal (status job) = true → r = already (status job) ∧ JOBS' = JOBS) ∧
  (terminal (status job) = false →
     r = accepted ∧
     (∃ job', JOBS' !! id = Some job' ∧ cancel_requested job' = true ∧
              terminal (status job') = false) ∧
     (cancel_download id JOBS').1 = accepted ∧
     ∀ (JOBS'' : gmap string Job) (job'' : Job),
       JOBS'' !! id = Some job'' → terminal (status job'') = true →
       cancel_download id JOBS'' = (already (status job''), JOBS'')).
Proof.
  intros Hj accepted already. unfold cancel_download at 1. rewrite Hj.
  assert (Hdiff : ∀ s, accepted ≠ already s).
  { intros s E. apply (f_equal (λ m : dict, m !! "reason")) in E.
    vm_compute in E. discriminate. }
  destruct (terminal (status job)) eqn:Hterm.
  - split; [done|]. split; [done|]. split; [done|]. done.
  - split; [done|]. split; [done|]. split; [done|]. intros _.
    split; [done|]. split; [|split].
    + exists (cancel_job job). rewrite lookup_insert_eq.
      destruct (cancel_job_fields job) as [-> ->]. done.
    + unfold cancel_download. rewrite lookup_insert_eq.
      destruct (cancel_job_fields job) as [-> _]. done.
    + intros JOBS'' job'' Hj'' Hterm''. unfold cancel_download.
      by rewrite Hj'', Hterm''.
Qed.

(** C9. For a job id that is not in the registry, [get_download_status]
    and [cancel_download] return the answer
    [{"error": "job_id not found", "job_id": id}], and the registry is
    left as it is. *)
Theorem unknown_job_not_found (JOBS : gmap string Job) (id : string) :
  JOBS !! id = None →
  let answer : dict :=
    {[ "error" := PStr "job_id not found"; "job_id" := PStr id ]} in
  get_download_status id JOBS = answer ∧
  cancel_download id JOBS = (answer, JOBS) ∧
  answer !! "error" = Some (PStr "job_id not found") ∧
  answer !! "job_id" = Some (PStr id).
Proof.
  intros Hj answer. unfold get_download_status, cancel_download. by rewrite Hj.
Qed.

(** *** Progress *)

Lemma eq_str_spec (v : pyval) (s : string) : eq_str v s = true ↔ v = PStr s.
Proof.
  destruct v; simpl; try (split; [discriminate|intros [=]]).
  rewrite String.eqb_eq. split; [by intros ->|by intros [= ->]].
Qed.

Lemma eq_str_false (v : pyval) (s : string) : v ≠ PStr s → eq_str v s = false.
Proof.
  intros Hne. destruct (eq_str v s) eqn:E; [|done]. by apply eq_str_spec in E.
Qed.

Lemma as_number_truthy (v : pyval) (y : Q) :
  as_number v = Some y → ¬ (y == 0)%Q → truthy v = true ∧ Qeq_bool y 0 = false.
Proof.
  intros Hv Hy.
  assert (Qeq_bool y 0 = false) as Hb.
  { destruct (Qeq_bool y 0) eqn:E; [|done]. by apply Qeq_bool_eq in E. }
  split; [|done].
  destruct v as [|[]|n| |s|m|]; simpl in *; simplify_eq; try done.
  - destruct (Z.eqb_spec n 0) as [->|]; [by destruct Hy|done].
  - by rewrite Hb.
Qed.

Lemma progress_hook_try_downloading (job : Job) (d : dict) (x y : Q) :
  get d "status" = PStr "downloading" →
  as_number (get d "downloaded_bytes") = Some x →
  as_number (sample_total d) = Some y → ¬ (y == 0)%Q →
  progress_hook_try job d =
    Ok (set_progress {| percent := round2 (x / y * 100);
                        downloaded_bytes := get_default d "downloaded_bytes" (PInt 0);
                        total_bytes := sample_total d |} job).
Proof.
  intros Hst Hx Hy Hnz.
  destruct (as_number_truthy _ _ Hy Hnz) as [Ht Hb].
  unfold progress_hook_try, sample_total in *.
  rewrite Hst, Ht. simpl. unfold truediv. by rewrite Hx, Hy, Hb.
Qed.

Lemma positive_nonzero (t : Z) : (0 < t)%Z → ¬ (inject_Z t == 0)%Q.
Proof. intros Hpos E. unfold Qeq in E. simpl in E. lia. Qed.

Lemma progress_hook_try_finished (job : Job) (d : dict) :
  get d "status" = PStr "finished" →
  progress_hook_try job d = Ok (set_progress (set_percent 100 (progress job)) job).
Proof. intros Hst. unfold progress_hook_try. by rewrite Hst. Qed.

Lemma progress_hook_after (job job' : Job) (d : dict) :
  progress_hook_try job d = Ok job' →
  progress (progress_hook job d).1 = progress job'.
Proof.
  intros E. unfold progress_hook. rewrite E. by destruct (cancel_requested job').
Qed.

(** C7 (amended). While [cancel_requested] is false the hook returns
    without raising, whatever the sample; it changes nothing of the job but
    its progress; and it leaves the job as it is when the status of the
    sample is neither ["downloading"] nor ["finished"], and when reading
    the sample raises, as it does for a ["downloading"] sample with a total
    whose byte count is missing or not a number. *)
Theorem progress_hook_contained (job : Job) (d : dict) :
  cancel_requested job = false →
  (progress_hook job d).2 = Ok () ∧
  (∃ p, (progress_hook job d).1 = set_progress p job) ∧
  (get d "status" ≠ PStr "downloading" → get d "status" ≠ PStr "finished" →
     (progress_hook job d).1 = job) ∧
  (∀ e, progress_hook_try job d = Raise e → (progress_hook job d).1 = job) ∧
  (get d "status" = PStr "downloading" → truthy (sample_total d) = true →
     as_number (get d "downloaded_bytes") = None →
     (progress_hook job d).1 = job).
Proof.
  intros Hc.
  assert (Hraise : ∀ e, progress_hook_try job d = Raise e →
                        (progress_hook job d).1 = job).
  { intros e E. unfold progress_hook. rewrite E. by rewrite Hc. }
  split; [by rewrite progress_hook_result, Hc|].
  split; [apply progress_hook_fields|].
  split; [|split; [done|]].
  - intros Hd Hf. unfold progress_hook, progress_hook_try.
    rewrite (eq_str_false _ _ Hd), (eq_str_false _ _ Hf). unfold_result.
    by rewrite Hc.
  - intros Hst Ht Hn. apply (Hraise (TypeError "unsupported operand type(s) for /")).
    unfold progress_hook_try, sample_total in *. rewrite Hst, Ht. simpl.
    unfold truediv. by rewrite Hn.
Qed.

Lemma progress_hook_stands_at (job : Job) (t : Z) (d : dict) (a : Z) :
  (0 < t)%Z → stands_at t d a →
  (percent (progress (progress_hook job d).1) == round2 (100 * inject_Z a / inject_Z t))%Q.
Proof.
  intros Hpos [(Hst & Ha & Ht)|[Hst ->]];
    pose proof (positive_nonzero t Hpos) as Hnz.
  - rewrite (progress_hook_after _ _ _
               (progress_hook_try_downloading job d (inject_Z a) (inject_Z t) Hst
                  ltac:(by rewrite Ha) ltac:(by rewrite Ht) Hnz)).
    simpl. rewrite (round2_comp _ (100 * inject_Z a / inject_Z t)); [reflexivity|].
    by field.
  - rewrite (progress_hook_after _ _ _ (progress_hook_try_finished job d Hst)).
    simpl. rewrite (round2_comp (100 * inject_Z t / inject_Z t) 100); [reflexivity|].
    by field.
Qed.

Lemma round2_level_mono (t a a' : Z) :
  (0 < t)%Z → (a ≤ a')%Z →
  (round2 (100 * inject_Z a / inject_Z t) <= round2 (100 * inject_Z a' / inject_Z t))%Q.
Proof.
  intros Hpos Hle. apply round2_mono. unfold Qdiv.
  apply Qmult_le_compat_r.
  - apply Qmult_le_l; [reflexivity|]. by rewrite <- Zle_Qle.
  - apply Qinv_le_0_compat. replace 0%Q with (inject_Z 0) by done.
    rewrite <- Zle_Qle. lia.
Qed.

Lemma percents_head (job : Job) (t : Z) (ds : list dict) (levels : list Z) (q : Q)
    (rest : list Q) :
  (0 < t)%Z → Forall2 (stands_at t) ds levels →
  percents job ds = q :: rest →
  ∃ a levels', levels = a :: levels' ∧
               (q == round2 (100 * inject_Z a / inject_Z t))%Q.
Proof.
  intros Hpos Hf Hp. destruct Hf as [|d a ds' levels' Hd Hf]; [done|].
  exists a, levels'. split; [done|]. simpl in Hp.
  pose proof (progress_hook_stands_at job t d a Hpos Hd) as Hq.
  destruct (progress_hook job d) as [job' r]. simpl in Hq.
  injection Hp as <- _. exact Hq.
Qed.

(** C4 (amended). Over the samples of a steady download, which all
    report the same positive total and byte counts that do not decrease,
    the ["finished"] sample counting as the total, the percentages stored
    by the hook do not decrease. *)
Theorem percent_non_decreasing (job : Job) (t : Z) (ds : list dict) (levels : list Z) :
  (0 < t)%Z → Forall2 (stands_at t) ds levels → Sorted Z.le levels →
  Sorted Qle (percents job ds).
Proof.
  intros Hpos Hf. revert job.
  induction Hf as [|d a ds' levels' Hd Hf IH]; intros job Hs; [constructor|].
  apply Sorted_inv in Hs as [Hs Hhd]. simpl.
  pose proof (progress_hook_stands_at job t d a Hpos Hd) as Hq.
  destruct (progress_hook job d) as [job' r]. simpl in Hq.
  destruct r as [[]|e]; [|by repeat constructor].
  constructor; [by apply IH|].
  destruct (percents job' ds') as [|q rest] eqn:Hp; constructor.
  destruct (percents_head job' t ds' levels' q rest Hpos Hf Hp)
    as (a' & levels'' & -> & Hq').
  apply HdRel_inv in Hhd. rewrite Hq, Hq'. by apply round2_level_mono.
Qed.

(** *** Submission, failure messages and snapshots *)

(** C6 (amended). [download_video] and [download_playlist] check nothing
    about the request: for every URL, the empty one included, and every
    path whose directory can be created, they answer with the new job id
    and leave under it a [pending] job with that URL and a scheduled task,
    the other entries of the registry being as before. *)
Theorem submit_registers_any_url
    (uuid url download_path : string) (JOBS : gmap string Job) :
  os_makedirs download_path = Ok () →
  registers uuid url JOBS (download_video uuid url download_path JOBS) ∧
  registers uuid url JOBS (download_playlist uuid url download_path JOBS).
Proof.
  intros Hmk. unfold download_video, download_playlist, registers. rewrite Hmk.
  simpl. split.
  - split; [done|]. split.
    + eexists. rewrite lookup_insert_eq. split; [done|]. simpl. eauto 10.
    + intros id Hne. by rewrite !lookup_insert_ne.
  - split; [done|]. split.
    + eexists. rewrite lookup_insert_eq. split; [done|]. simpl. eauto 10.
    + intros id Hne. by rewrite !lookup_insert_ne.
Qed.

(** C8 (amended). If the fetch raises an exception of class [qualname]
    with message ["network unreachable"] and no cancellation was
    requested, the [except] clause sets the status to [error] and the
    stored message to the line [<qualname>: network unreachable]. *)
Theorem fetch_failure_recorded (job : Job) (qualname : string) :
  cancel_requested job = false → lstrip qualname = qualname →
  let job' := run_except job (Exn qualname "network unreachable") in
  status job' = Error ∧
  error_message job' = Some (qualname +:+ ": network unreachable").
Proof.
  intros Hc Hq. cbv zeta. unfold run_except. rewrite Hc. split; [done|].
  cbn [error_message set_error_message]. f_equal.
  rewrite join_format_exception_only by done. unfold strip.
  change (": " +:+ "network unreachable" +:+ newline)
    with (": network unreachable" +:+ newline).
  assert (lstrip (qualname +:+ ": network unreachable" +:+ newline)
          = qualname +:+ ": network unreachable" +:+ newline) as ->.
  { destruct (decide (qualname = "")) as [->|Hne]; [done|].
    by apply lstrip_fixed_app. }
  by rewrite rstrip_app.
Qed.

Lemma clean_copy_lookup (job : Job) :
  clean_copy job !! "task" = None ∧
  ∀ k, k ≠ "task" → clean_copy job !! k = job_items job !! k.
Proof.
  unfold clean_copy. split.
  - apply map_lookup_filter_None. right. intros v _ Hk. by apply Hk.
  - intros k Hk. destruct (job_items job !! k) as [v|] eqn:E.
    + by apply map_lookup_filter_Some.
    + apply map_lookup_filter_None. by left.
Qed.

(** C10. The snapshot [get_download_status] returns for a job in the
    registry has no ['task'] key and agrees with the job entry on every
    other key, its keys being the seven other fields of the entry; the
    snapshot of the job is in the list [list_downloads] returns, and every
    element of that list is such a snapshot of a job of the registry. *)
Theorem snapshots_hide_task (JOBS : gmap string Job) (id : string) (job : Job) :
  JOBS !! id = Some job →
  let snapshot_of (snap : dict) (job : Job) :=
    snap !! "task" = None ∧
    (∀ k, k ≠ "task" → snap !! k = job_items job !! k) ∧
    dom snap = list_to_set ["job_id"; "url"; "status"; "progress";
                            "error_message"; "output_path"; "cancel_requested"] in
  snapshot_of (get_download_status id JOBS) job ∧
  (∃ snap, snap ∈ list_downloads JOBS ∧ snapshot_of snap job) ∧
  (∀ snap, snap ∈ list_downloads JOBS →
           ∃ id' job', JOBS !! id' = Some job' ∧ snapshot_of snap job').
Proof.
  intros Hj snapshot_of.
  assert (Hsnap : ∀ job', snapshot_of (clean_copy job') job').
  { intros job'. destruct (clean_copy_lookup job') as [Ht Hk].
    split; [done|]. split; [done|]. by vm_compute. }
  split; [|split].
  - unfold get_download_status. rewrite Hj. apply Hsnap.
  - exists (clean_copy job). split; [|apply Hsnap].
    unfold list_downloads. apply list_elem_of_fmap_2.
    apply list_elem_of_fmap. exists (id, job). split; [done|].
    by apply elem_of_map_to_list.
  - intros snap Hin. unfold list_downloads in Hin.
    apply list_elem_of_fmap in Hin as (job' & -> & Hin).
    apply list_elem_of_fmap in Hin as ([id' job''] & -> & Hin).
    apply elem_of_map_to_list in Hin. exists id', job''. split; [done|]. apply Hsnap.
Qed.

End Properties.

(** *** The properties at concrete inputs *)

Import Examples.

Lemma status_follows_life_cycle_witness :
  reachable (H := writable) submitted ∧
  step (H := writable) submitted (CallCancelDownload "job-1") = Some submitted_cancelled ∧
  match submitted !! "job-1", submitted_cancelled !! "job-1" with
  | None, None => True
  | None, Some job' => status job' = Pending
  | Some job, None => False
  | Some job, Some job' =>
      (status job' = status job ∨ status_edge (status job) (status job') = true) ∧
      (terminal (status job) = true → status job' = status job)
  end.
Proof.
  assert (Hr : reachable (H := writable) submitted).
  { apply (reachable_step ∅ (CallDownloadVideo "job-1" sample_url "./downloads"));
      [constructor|reflexivity]. }
  split; [exact Hr|]. split; [reflexivity|].
  apply (status_follows_life_cycle (H := writable) submitted submitted_cancelled
           (CallCancelDownload "job-1") "job-1"); [exact Hr|reflexivity].
Defined.

(** The edge [pending → cancel_requested] is taken by a cancellation that
    arrives before the task of the job has started; it is not an edge of
    the life cycle as drawn. *)
Lemma cancel_of_pending_job_leaves_life_cycle :
  reachable (H := writable) submitted ∧
  step (H := writable) submitted (CallCancelDownload "job-1") = Some submitted_cancelled ∧
  status <$> submitted !! "job-1" = Some Pending ∧
  status <$> submitted_cancelled !! "job-1" = Some CancelRequested ∧
  lifecycle_edge Pending CancelRequested = false.
Proof.
  split.
  { apply (reachable_step ∅ (CallDownloadVideo "job-1" sample_url "./downloads"));
      [constructor|reflexivity]. }
  repeat split; vm_compute; reflexivity.
Qed.

Lemma cancel_download_results_witness :
  submitted !! "job-1" = Some scheduled_job ∧
  (cancel_download "job-1" submitted).1
    = {[ "status" := PStr "cancellation_requested"; "job_id" := PStr "job-1" ]} ∧
  (cancel_download "job-1" (cancel_download "job-1" submitted).2).1
    = {[ "status" := PStr "cancellation_requested"; "job_id" := PStr "job-1" ]}.
Proof.
  assert (Hj : submitted !! "job-1" = Some scheduled_job) by (vm_compute; reflexivity).
  split; [exact Hj|].
  pose proof (cancel_download_results submitted "job-1" scheduled_job Hj) as Hc.
  cbv zeta in Hc.
  destruct (cancel_download "job-1" submitted) as [r JOBS'].
  destruct Hc as (_ & _ & _ & Hc). destruct (Hc eq_refl) as (Hr & _ & Hr' & _).
  split; [exact Hr|exact Hr'].
Defined.

Lemma unknown_job_not_found_witness :
  submitted !! "job-2" = None ∧
  get_download_status "job-2" submitted
    = {[ "error" := PStr "job_id not found"; "job_id" := PStr "job-2" ]} ∧
  cancel_download "job-2" submitted
    = ({[ "error" := PStr "job_id not found"; "job_id" := PStr "job-2" ]}, submitted).
Proof.
  assert (Hj : submitted !! "job-2" = None) by (vm_compute; reflexivity).
  split; [exact Hj|].
  destruct (unknown_job_not_found submitted "job-2" Hj) as (Hg & Hc & _).
  split; [exact Hg|exact Hc].
Defined.

Lemma percent_non_decreasing_witness :
  (0 < 1000)%Z ∧
  Forall2 (stands_at 1000)
    [downloading_sample 300 1000; downloading_sample 700 1000; finished_sample]
    [300; 700; 1000]%Z ∧
  Sorted Z.le [300; 700; 1000]%Z ∧
  Sorted Qle
    (percents new_job
       [downloading_sample 300 1000; downloading_sample 700 1000; finished_sample]).
Proof.
  assert (Hpos : (0 < 1000)%Z) by lia.
  assert (Hf : Forall2 (stands_at 1000)
                 [downloading_sample 300 1000; downloading_sample 700 1000;
                  finished_sample] [300; 700; 1000]%Z).
  { constructor; [left; repeat split; reflexivity|].
    constructor; [left; repeat split; reflexivity|].
    constructor; [right; split; reflexivity|]. constructor. }
  assert (Hs : Sorted Z.le [300; 700; 1000]%Z) by (repeat constructor; lia).
  repeat (split; [assumption|]).
  exact (percent_non_decreasing new_job 1000 _ _ Hpos Hf Hs).
Defined.

(** A sample without a total sets the percentage back to [0.0]. *)
Lemma percent_drops_without_total :
  percents new_job [downloading_sample 500 1000; sample_without_total 600]
    = [5000 # 100; 0 # 100] ∧
  (0 # 100 < 5000 # 100)%Q.
Proof. split; [vm_compute; reflexivity|reflexivity]. Qed.

Lemma progress_hook_contained_witness :
  cancel_requested half_way = false ∧
  (progress_hook half_way (sample_without_total 600)).2 = Ok ().
Proof.
  assert (Hc : cancel_requested half_way = false) by reflexivity.
  split; [exact Hc|].
  exact (proj1 (progress_hook_contained half_way (sample_without_total 600) Hc)).
Defined.

(** A sample that lacks both byte counts is not ignored: it overwrites the
    progress stored before. *)
Lemma sample_without_counts_resets_progress :
  cancel_requested half_way = false ∧
  sample_without_counts !! "downloaded_bytes" = None ∧
  sample_without_counts !! "total_bytes" = None ∧
  progress half_way =
    {| percent := 5000 # 100; downloaded_bytes := PInt 500; total_bytes := PInt 1000 |} ∧
  progress (progress_hook half_way sample_without_counts).1 =
    {| percent := 0 # 100; downloaded_bytes := PInt 0; total_bytes := PNone |}.
Proof. repeat split; vm_compute; reflexivity. Qed.

Lemma submit_registers_any_url_witness :
  os_makedirs (OS := writable) "./downloads" = Ok () ∧
  registers "job-1" "" ∅ (download_video (H := writable) "job-1" "" "./downloads" ∅) ∧
  registers "job-1" "" ∅ (download_playlist (H := writable) "job-1" "" "./downloads" ∅).
Proof.
  assert (Hmk : os_makedirs (OS := writable) "./downloads" = Ok ()) by reflexivity.
  split; [exact Hmk|].
  exact (submit_registers_any_url (H := writable) "job-1" "" "./downloads" ∅ Hmk).
Defined.

(** The empty URL is not rejected: the call answers with a job id and the
    registry holds a pending job for it. *)
Lemma empty_url_is_registered :
  (download_video (H := writable) "job-1" "" "./downloads" ∅).1
    = Ok {[ "job_id" := PStr "job-1" ]} ∧
  url <$> (download_video (H := writable) "job-1" "" "./downloads" ∅).2 !! "job-1"
    = Some "" ∧
  status <$> (download_video (H := writable) "job-1" "" "./downloads" ∅).2 !! "job-1"
    = Some Pending.
Proof. repeat split; vm_compute; reflexivity. Qed.

Lemma fetch_failure_recorded_witness :
  cancel_requested new_job = false ∧
  lstrip "yt_dlp.utils.DownloadError" = "yt_dlp.utils.DownloadError" ∧
  status (run_except new_job (DownloadError "network unreachable")) = Error ∧
  error_message (run_except new_job (DownloadError "network unreachable"))
    = Some "yt_dlp.utils.DownloadError: network unreachable".
Proof.
  assert (Hc : cancel_requested new_job = false) by reflexivity.
  assert (Hq : lstrip "yt_dlp.utils.DownloadError" = "yt_dlp.utils.DownloadError")
    by reflexivity.
  split; [exact Hc|]. split; [exact Hq|].
  exact (fetch_failure_recorded new_job "yt_dlp.utils.DownloadError" Hc Hq).
Defined.

(** The stored message is not the message of the exception alone. *)
Lemma error_message_names_the_exception :
  cancel_requested new_job = false ∧
  status (run_except new_job (DownloadError "network unreachable")) = Error ∧
  error_message (run_except new_job (DownloadError "network unreachable"))
    = Some "yt_dlp.utils.DownloadError: network unreachable" ∧
  error_message (run_except new_job (DownloadError "network unreachable"))
    ≠ Some "network unreachable".
Proof. repeat split; try (vm_compute; reflexivity). vm_compute. discriminate. Qed.

Lemma snapshots_hide_task_witness :
  submitted !! "job-1" = Some scheduled_job ∧
  get_download_status "job-1" submitted !! "task" = None ∧
  get_download_status "job-1" submitted !! "url" = Some (PStr sample_url).
Proof.
  assert (Hj : submitted !! "job-1" = Some scheduled_job) by (vm_compute; reflexivity).
  split; [exact Hj|].
  destruct (snapshots_hide_task submitted "job-1" scheduled_job Hj)
    as ((Ht & Hk & _) & _).
  split; [exact Ht|]. rewrite Hk by discriminate. reflexivity.
Defined.

(** *** Two runs *)

(** The job of [completed_run] ends [completed] at 100 percent with its
    output path set. *)
Example single_video_completes :
  (λ job, (status job, percent (progress job), output_path job, error_message job))
    <$> (exec (H := writable) ∅ completed_run ≫= (.!! "job-1"))
  = Some (Completed, 100%Q,
          Some "/srv/./downloads/%(title)s - %(id)s.%(ext)s", None).
Proof. vm_compute. reflexivity. Qed.

(** The task of a job cancelled before its first step ends without running:
    the job keeps the status [cancel_requested], and no event of the fetch
    is enabled afterwards. *)
Example cancelled_before_start_never_runs :
  match exec (H := writable) ∅ cancelled_before_start with
  | Some JOBS =>
      status <$> JOBS !! "job-1" = Some CancelRequested ∧
      step (H := writable) JOBS
        (FetchRaises "job-1" (DownloadError "Cancelled by user")) = None ∧
      step (H := writable) JOBS (FetchReturns "job-1") = None
  | None => False
  end.
Proof. vm_compute. repeat split; reflexivity. Qed.

End Properties.

(** ** Further behaviour of the server and of its test client *)

Module Behaviour.
Import Py Server PyFacts Properties Client.

Ltac unfold_monad := cbv [mret mbind result_ret result_bind] in *.
Ltac same_fields := simpl; split; [done|]; split; [done|]; left; done.

Section Registry.
Context `{OS}.

(** *** How an event changes the fields of a job *)

Lemma job_step_fields (job : Job) (o' : option Job) :
  job_step (Some job) o' → job_inv job →
  ∃ job', o' = Some job' ∧ job_id job' = job_id job ∧ url job' = url job ∧
    ((status job' = status job ∧ cancel_requested job' = cancel_requested job ∧
      error_message job' = error_message job ∧ output_path job' = output_path job)
     ∨ (terminal (status job) = false ∧ status job' = CancelRequested ∧
        cancel_requested job' = true ∧ error_message job' = error_message job ∧
        output_path job' = output_path job ∧ progress job' = progress job)
     ∨ (status job = Pending ∧ status job' = Downloading ∧
        cancel_requested job' = cancel_requested job ∧
        error_message job' = error_message job ∧ output_path job' = output_path job)
     ∨ ((status job = Downloading ∨ status job = CancelRequested) ∧
        status job' = Completed ∧ cancel_requested job' = cancel_requested job ∧
        error_message job' = error_message job)
     ∨ ((status job = Downloading ∨ status job = CancelRequested) ∧
        status job' = (if cancel_requested job then Cancelled else Error) ∧
        cancel_requested job' = cancel_requested job ∧
        is_Some (error_message job') ∧ output_path job' = output_path job)).
Proof.
  intros Hs [_ Hj].
  inversion Hs as [o| | |job0 Hterm|ev job0 t job1 Ht Hts]; subst.
  - exists job. split; [done|]. split; [done|]. split; [done|]. by left.
  - exists (cancel_job job). split; [done|].
    destruct job as [? ? ? ? ? ? ? [[? [] ?]|]]; simpl in *;
      (split; [done|]); (split; [done|]); right; left; done.
  - exists job1. split; [done|].
    rewrite Ht in Hj. destruct Hj as [[outtmpl Hopts] Hph].
    unfold task_step in Hts.
    destruct ev as [| | | | |jid|jid|jid d|jid|jid e], (phase t) eqn:Hp;
      try discriminate.
    + destruct (must_cancel t); [injection Hts as <-; same_fields|].
      destruct (run_begin job (ydl_opts t)) as [job1'|] eqn:Hb;
        injection Hts as <-; [|same_fields].
      apply run_begin_status in Hb as ->. simpl.
      split; [done|]. split; [done|]. right; right; left. done.
    + destruct (must_cancel t); [|done]. injection Hts as <-. same_fields.
    + injection Hts as <-. destruct (progress_hook_fields job d) as [p ->].
      same_fields.
    + injection Hts as <-. destruct (progress_hook_fields job d) as [p ->].
      same_fields.
    + destruct (must_cancel t); [done|].
      injection Hts as <-. unfold run_returned. rewrite Hopts.
      split; [by destruct (truthy _)|]. split; [by destruct (truthy _)|].
      do 3 right. left. by destruct (truthy _).
    + injection Hts as <-. same_fields.
    + destruct (must_cancel t); [done|].
      injection Hts as <-. unfold run_except.
      destruct job as [? ? ? ? ? ? [] ?]; simpl in *;
        (split; [done|]); (split; [done|]); do 4 right; eauto.
    + injection Hts as <-. same_fields.
Qed.

Lemma results_agree_open (job : Job) :
  results_agree job → terminal (status job) = false →
  error_message job = None ∧ output_path job = None.
Proof.
  intros [Hem Hop] Hterm. split.
  - destruct (error_message job) as [m|]; [|done].
    destruct (proj1 Hem (mk_is_Some _ _ eq_refl)) as [E|E];
      by rewrite E in Hterm.
  - destruct (output_path job) as [p|]; [|done].
    by rewrite (Hop (mk_is_Some _ _ eq_refl)) in Hterm.
Qed.

Lemma results_agree_intro (job : Job) :
  (error_message job = None ∧ status job ≠ Error ∧ status job ≠ Cancelled ∨
   is_Some (error_message job) ∧ (status job = Error ∨ status job = Cancelled)) →
  (output_path job = None ∨ status job = Completed) →
  results_agree job.
Proof.
  intros Hem Hop. split.
  - destruct Hem as [(-> & Hne & Hnc)|[Hs Hst]].
    + split; [by intros [? [=]]|by intros [?|?]].
    + done.
  - destruct Hop as [->| ->]; [by intros [? [=]]|done].
Qed.

Lemma job_step_agree (o o' : option Job) :
  job_step o o' →
  (∀ job, o = Some job → job_inv job ∧ flag_agrees job ∧ results_agree job) →
  ∀ job', o' = Some job' → flag_agrees job' ∧ results_agree job'.
Proof.
  intros Hs Hinv job' Ho'. destruct o as [job|].
  - destruct (Hinv job eq_refl) as (Hj & Hf & Hr).
    destruct (job_step_fields job _ Hs Hj) as (job1 & -> & _ & _ & Hc).
    injection Ho' as ->.
    destruct Hc as [(Hst & Hcr & He & Ho)|[(Ht & Hst & Hcr & He & Ho & _)
      |[(Hp & Hst & Hcr & He & Ho)|[(Hrun & Hst & Hcr & He)|(Hrun & Hst & Hcr & He & Ho)]]]].
    + unfold flag_agrees, results_agree in *. by rewrite Hst, Hcr, He, Ho.
    + destruct (results_agree_open job Hr Ht) as [Hem Hop].
      split; [unfold flag_agrees; by rewrite Hst, Hcr|].
      apply results_agree_intro; rewrite ?Hst, ?He, ?Ho; [left|left]; done.
    + assert (Ht : terminal (status job) = false) by by rewrite Hp.
      destruct (results_agree_open job Hr Ht) as [Hem Hop].
      split; [unfold flag_agrees in *; rewrite Hp in Hf; by rewrite Hst, Hcr|].
      apply results_agree_intro; rewrite ?Hst, ?He, ?Ho; [left|left]; done.
    + assert (Ht : terminal (status job) = false) by by destruct Hrun as [-> | ->].
      destruct (results_agree_open job Hr Ht) as [Hem Hop].
      split; [unfold flag_agrees; by rewrite Hst|].
      apply results_agree_intro; rewrite ?Hst, ?He; [left|right]; done.
    + assert (Ht : terminal (status job) = false) by by destruct Hrun as [-> | ->].
      destruct (results_agree_open job Hr Ht) as [Hem Hop].
      split; [unfold flag_agrees; rewrite Hst, Hcr; by destruct (cancel_requested job)|].
      apply results_agree_intro; rewrite ?Hst, ?Ho; [right|left; done].
      split; [done|]. destruct (cancel_requested job); auto.
  - rewrite Ho' in Hs. inversion Hs; subst;
      (split; [done|]); apply results_agree_intro; simpl; auto.
Qed.

Lemma reachable_agree (JOBS : gmap string Job) :
  reachable JOBS →
  ∀ id job, JOBS !! id = Some job → flag_agrees job ∧ results_agree job.
Proof.
  induction 1 as [|JOBS ev JOBS' Hr IH Hstep]; intros id job Hj.
  - by rewrite lookup_empty in Hj.
  - eapply job_step_agree; [exact (step_job_step _ _ _ id Hstep)| |done].
    intros job0 Hj0. split; [by eapply reachable_inv|by eapply IH].
Qed.

Lemma step_new_entry (JOBS JOBS' : gmap string Job) (ev : event) (id : string)
    (job' : Job) :
  step JOBS ev = Some JOBS' → JOBS !! id = None → JOBS' !! id = Some job' →
  job_id job' = id ∧
  ∃ url download_path,
    (ev = CallDownloadVideo id url download_path ∨
     ev = CallDownloadPlaylist id url download_path) ∧
    Server.url job' = url.
Proof.
  intros Hs Hnone Hj'.
  assert (Htask : ∀ jid, on_task jid ev JOBS = Some JOBS' → False).
  { intros jid Ht. unfold on_task in Ht.
    apply bind_Some in Ht as (job & Hj & Ht).
    apply bind_Some in Ht as (t & _ & Ht).
    apply bind_Some in Ht as (job1 & _ & [= <-]).
    destruct (decide (jid = id)) as [->|Hne]; [congruence|].
    rewrite lookup_insert_ne in Hj' by done. congruence. }
  destruct ev as [uuid url download_path|uuid url download_path|jid|jid|
                  |jid|jid|jid d|jid|jid e]; simpl in Hs.
  - destruct (JOBS !! uuid) eqn:Hfresh; [done|]. injection Hs as <-.
    unfold download_video in Hj'. simpl in Hj'.
    destruct (decide (uuid = id)) as [->|Hne].
    + destruct (os_makedirs download_path); simpl in Hj';
        rewrite lookup_insert_eq in Hj'; injection Hj' as <-; simpl;
        (split; [done|]); eexists _, _; eauto.
    + destruct (os_makedirs download_path); simpl in Hj';
        rewrite !lookup_insert_ne in Hj' by done; congruence.
  - destruct (JOBS !! uuid) eqn:Hfresh; [done|]. injection Hs as <-.
    unfold download_playlist in Hj'. simpl in Hj'.
    destruct (decide (uuid = id)) as [->|Hne].
    + destruct (os_makedirs download_path); simpl in Hj';
        rewrite lookup_insert_eq in Hj'; injection Hj' as <-; simpl;
        (split; [done|]); eexists _, _; eauto.
    + destruct (os_makedirs download_path); simpl in Hj';
        rewrite !lookup_insert_ne in Hj' by done; congruence.
  - congruence.
  - injection Hs as <-. unfold cancel_download in Hj'.
    destruct (JOBS !! jid) as [job|] eqn:Hj; simpl in Hj'; [|congruence].
    destruct (terminal (status job)); simpl in Hj'; [congruence|].
    destruct (decide (jid = id)) as [->|Hne]; [congruence|].
    rewrite lookup_insert_ne in Hj' by done. congruence.
  - congruence.
  - by destruct (Htask _ Hs).
  - by destruct (Htask _ Hs).
  - by destruct (Htask _ Hs).
  - by destruct (Htask _ Hs).
  - by destruct (Htask _ Hs).
Qed.

Lemma step_old_entry (JOBS JOBS' : gmap string Job) (ev : event) (id : string)
    (job : Job) :
  reachable JOBS → step JOBS ev = Some JOBS' → JOBS !! id = Some job →
  ∃ job', JOBS' !! id = Some job' ∧ job_step (Some job) (Some job') ∧ job_inv job.
Proof.
  intros Hr Hs Hj. pose proof (step_job_step _ _ _ id Hs) as Hjs.
  rewrite Hj in Hjs. pose proof (reachable_inv _ Hr _ _ Hj) as Hinv.
  destruct (job_step_fields job _ Hjs Hinv) as (job' & Hj' & _).
  exists job'. rewrite Hj' in Hjs. done.
Qed.

Lemma job_step_request (o o' : option Job) :
  job_step o o' →
  (∀ job, o = Some job → job_inv job ∧ request_stands job) →
  ∀ job', o' = Some job' → request_stands job'.
Proof.
  intros Hs Hinv job' Ho'.
  destruct Hs as [o|uuid url path|uuid url path opts outtmpl Hopts|job Hterm
                 |ev job t job1 Ht Hts].
  - by apply Hinv.
  - injection Ho' as <-. by split.
  - injection Ho' as <-. split; [done|]. simpl. split; [done|].
    by intros [?|?].
  - injection Ho' as <-. destruct (Hinv job eq_refl) as [_ [_ Hrt]].
    unfold cancel_job. split; [done|].
    destruct job as [? ? st ? ? ? ? [[opts ph mc]|]]; [|done].
    destruct ph; simpl in *; (split; [|done]);
      first [ by intros _ [=] | by intros [[=]|[=]] ].
  - injection Ho' as <-. destruct (Hinv job eq_refl) as [[_ Hj] [Hflag Hrt]].
    rewrite Ht in Hj, Hrt. destruct Hj as [[outtmpl Hopts] _].
    destruct Hrt as [Hnot Hcan].
    unfold task_step in Hts.
    destruct ev as [| | | | |jid|jid|jid d|jid|jid e], (phase t) eqn:Hp;
      try discriminate.
    + destruct (must_cancel t) eqn:Hmc.
      * injection Hts as <-. split; [done|]. simpl. split.
        -- by intros [[=]|[=]].
        -- intros _. by apply Hcan; left.
      * pose proof (Hnot (or_introl eq_refl) eq_refl) as Hfalse.
        destruct (run_begin job (ydl_opts t)) as [job1'|] eqn:Hb;
          injection Hts as <-.
        -- apply run_begin_status in Hb as ->. split; simpl.
           ++ by rewrite Hfalse.
           ++ rewrite Hmc. split; [done|]. by intros [[=]|[=]].
        -- split; [done|]. simpl. rewrite Hmc. split.
           ++ by intros [[=]|[=]].
           ++ by intros [[=]|[=]].
    + destruct (must_cancel t) eqn:Hmc; [|done]. injection Hts as <-.
      split; [done|]. simpl. rewrite Hmc. split.
      * by intros [[=]|[=]].
      * intros _. by apply Hcan; left.
    + injection Hts as <-. destruct (progress_hook_fields job d) as [p ->].
      split; [done|]. simpl. rewrite Ht. simpl. rewrite Hp. done.
    + injection Hts as <-. destruct (progress_hook_fields job d) as [p ->].
      split; [done|]. simpl. rewrite Ht. simpl. rewrite Hp. done.
    + destruct (must_cancel t) eqn:Hmc; [done|]. injection Hts as <-.
      pose proof (Hnot (or_intror eq_refl) eq_refl) as Hfalse.
      destruct (run_returned_str job _ _ Hopts) as (_ & Hcr & _).
      split; simpl.
      * by rewrite Hcr, Hfalse.
      * rewrite Hmc. split; by intros [[=]|[=]].
    + injection Hts as <-. split; [done|]. simpl. split.
      * by intros [[=]|[=]].
      * intros _. by apply Hcan; right.
    + destruct (must_cancel t) eqn:Hmc; [done|]. injection Hts as <-.
      pose proof (Hnot (or_intror eq_refl) eq_refl) as Hfalse.
      destruct (run_except_status job e) as (_ & Hcr & _).
      split; simpl.
      * by rewrite Hcr, Hfalse.
      * rewrite Hmc. split; by intros [[=]|[=]].
    + injection Hts as <-. split; [done|]. simpl. split.
      * by intros [[=]|[=]].
      * intros _. by apply Hcan; right.
Qed.

Lemma reachable_request (JOBS : gmap string Job) :
  reachable JOBS → ∀ id job, JOBS !! id = Some job → request_stands job.
Proof.
  induction 1 as [|JOBS ev JOBS' Hr IH Hstep]; intros id job Hj.
  - by rewrite lookup_empty in Hj.
  - eapply job_step_request; [exact (step_job_step _ _ _ id Hstep)| |done].
    intros job0 Hj0. split; [by eapply reachable_inv|by eapply IH].
Qed.

(** *** The fate of a cancellation request *)

(** C2 (defect). In every run of the server no job ever has the status
    [cancelled]: a job with a cancellation request has the status
    [cancel_requested] and no message, and when the fetch of its task
    raises it keeps both, the [except] clause not being run; the clause
    runs only for a job without a request, which it leaves in [error]. *)
Theorem cancelled_is_never_reached
    (JOBS : gmap string Job) (id : string) (job : Job) :
  reachable JOBS → JOBS !! id = Some job →
  status job ≠ Cancelled ∧
  (cancel_requested job = true →
     status job = CancelRequested ∧ error_message job = None) ∧
  (∀ e JOBS', step JOBS (FetchRaises id e) = Some JOBS' →
     ∃ job', JOBS' !! id = Some job' ∧
       if cancel_requested job
       then status job' = CancelRequested ∧ error_message job' = None
       else status job' = Error).
Proof.
  intros Hr Hj.
  destruct (reachable_request _ Hr _ _ Hj) as [Hflag Hrt].
  destruct (reachable_agree _ Hr _ _ Hj) as [Hfa Hres].
  assert (Hreq : cancel_requested job = true →
                 status job = CancelRequested ∧ error_message job = None).
  { intros Hc. pose proof (Hflag Hc) as Hst. split; [done|].
    apply (results_agree_open job Hres). by rewrite Hst. }
  split; [|split; [done|]].
  - intros Hst. unfold flag_agrees in Hfa. rewrite Hst in Hfa.
    pose proof (Hflag Hfa). congruence.
  - intros e JOBS' Hs.
    change (on_task id (FetchRaises id e) JOBS = Some JOBS') in Hs.
    unfold on_task in Hs. apply bind_Some in Hs as (job0 & Hj0 & Hs).
    rewrite Hj in Hj0. injection Hj0 as <-.
    apply bind_Some in Hs as (t & Ht & Hs).
    apply bind_Some in Hs as (job' & Hts & [= <-]).
    rewrite Ht in Hrt. destruct Hrt as [Hnot Hcan].
    exists job'. rewrite lookup_insert_eq. split; [done|].
    unfold task_step in Hts. destruct (phase t) eqn:Hp; try discriminate.
    + destruct (must_cancel t) eqn:Hmc; [done|]. injection Hts as <-.
      rewrite (Hnot (or_intror eq_refl) eq_refl).
      destruct (run_except_status job e) as (Hst & _). simpl.
      by rewrite Hst, (Hnot (or_intror eq_refl) eq_refl).
    + injection Hts as <-. rewrite (Hcan (or_intror eq_refl)). simpl.
      by apply Hreq, Hcan; right.
Qed.

(** *** Invariants of the registry *)

(** X1. In every run of the server a job is stored under its own
    [job_id], and no event changes the [job_id] or the [url] of a job. *)
Theorem job_identity_is_kept (JOBS : gmap string Job) (id : string) (job : Job) :
  reachable JOBS → JOBS !! id = Some job →
  job_id job = id ∧
  ∀ ev JOBS', step JOBS ev = Some JOBS' →
    ∃ job', JOBS' !! id = Some job' ∧ job_id job' = id ∧ url job' = url job.
Proof.
  intros Hr. revert id job.
  assert (Hkey : ∀ id job, JOBS !! id = Some job → job_id job = id).
  { induction Hr as [|JOBS ev JOBS' Hr IH Hs]; intros id job Hj.
    - by rewrite lookup_empty in Hj.
    - destruct (JOBS !! id) as [job0|] eqn:Hj0.
      + destruct (step_old_entry _ _ _ _ _ Hr Hs Hj0) as (job' & Hj' & Hjs & Hinv).
        destruct (job_step_fields _ _ Hjs Hinv) as (job1 & [= <-] & Hid & _).
        rewrite Hj in Hj'. injection Hj' as ->. rewrite Hid. by apply IH.
      + by destruct (step_new_entry _ _ _ _ _ Hs Hj0 Hj) as [? _]. }
  intros id job Hj. split; [by apply Hkey|]. intros ev JOBS' Hs.
  destruct (step_old_entry _ _ _ _ _ Hr Hs Hj) as (job' & Hj' & Hjs & Hinv).
  destruct (job_step_fields _ _ Hjs Hinv) as (job1 & [= <-] & Hid & Hurl & _).
  exists job'. rewrite Hid, (Hkey _ _ Hj). done.
Qed.

(** X2. In every run of the server [cancel_requested], once set on a job,
    is never reset by any event. *)
Theorem cancel_requested_is_never_reset
    (JOBS JOBS' : gmap string Job) (ev : event) (id : string) (job : Job) :
  reachable JOBS → step JOBS ev = Some JOBS' →
  JOBS !! id = Some job → cancel_requested job = true →
  ∃ job', JOBS' !! id = Some job' ∧ cancel_requested job' = true.
Proof.
  intros Hr Hs Hj Hc.
  destruct (step_old_entry _ _ _ _ _ Hr Hs Hj) as (job' & Hj' & Hjs & Hinv).
  destruct (job_step_fields _ _ Hjs Hinv) as (job1 & [= <-] & _ & _ & Hcases).
  exists job'. split; [done|].
  destruct Hcases as [(_ & -> & _)|[(_ & _ & -> & _)
    |[(_ & _ & -> & _)|[(_ & _ & -> & _)|(_ & _ & -> & _)]]]]; done.
Qed.

(** X3. In every run of the server the flag and the status of a job agree:
    a [pending], [downloading] or [error] job has [cancel_requested]
    false, a [cancel_requested] or [cancelled] job has it true. *)
Theorem flag_and_status_agree (JOBS : gmap string Job) (id : string) (job : Job) :
  reachable JOBS → JOBS !! id = Some job → flag_agrees job.
Proof. intros Hr Hj. by destruct (reachable_agree _ Hr _ _ Hj). Qed.

(** X4. In every run of the server a job has an [error_message] exactly
    when its status is [error] or [cancelled], and an [output_path] only
    when its status is [completed]. *)
Theorem message_and_path_agree (JOBS : gmap string Job) (id : string) (job : Job) :
  reachable JOBS → JOBS !! id = Some job → results_agree job.
Proof. intros Hr Hj. by destruct (reachable_agree _ Hr _ _ Hj). Qed.

(** X5. In every run of the server no event changes the status, the
    message, the output path or the flag of a job that is [completed], in
    [error] or [cancelled]. *)
Theorem finished_job_is_final
    (JOBS JOBS' : gmap string Job) (ev : event) (id : string) (job : Job) :
  reachable JOBS → step JOBS ev = Some JOBS' →
  JOBS !! id = Some job → terminal (status job) = true →
  ∃ job', JOBS' !! id = Some job' ∧
    status job' = status job ∧ error_message job' = error_message job ∧
    output_path job' = output_path job ∧
    cancel_requested job' = cancel_requested job.
Proof.
  intros Hr Hs Hj Hterm.
  destruct (step_old_entry _ _ _ _ _ Hr Hs Hj) as (job' & Hj' & Hjs & Hinv).
  destruct (job_step_fields _ _ Hjs Hinv) as (job1 & [= <-] & _ & _ & Hcases).
  exists job'. split; [done|].
  destruct Hcases as [(-> & -> & -> & ->)|[(Ht & _)
    |[(Hp & _)|[(Hrun & _)|(Hrun & _)]]]]; [done|..].
  - congruence.
  - by rewrite Hp in Hterm.
  - by destruct Hrun as [E|E]; rewrite E in Hterm.
  - by destruct Hrun as [E|E]; rewrite E in Hterm.
Qed.


(** *** The tools *)

Lemma cancel_job_idempotent (job : Job) : cancel_job (cancel_job job) = cancel_job job.
Proof. by destruct job as [? ? ? ? ? ? ? [[? [] ?]|]]. Qed.

(** X7. A second [cancel_download] for the same job id gives the answer of
    the first and changes nothing more in the registry. *)
Theorem cancel_download_idempotent (JOBS : gmap string Job) (id : string) :
  cancel_download id (cancel_download id JOBS).2 = cancel_download id JOBS.
Proof.
  unfold cancel_download at 2 3.
  destruct (JOBS !! id) as [job|] eqn:Hj; simpl.
  - destruct (terminal (status job)) eqn:Hterm; simpl.
    + unfold cancel_download. by rewrite Hj, Hterm.
    + unfold cancel_download. rewrite lookup_insert_eq.
      destruct (cancel_job_fields job) as [Hst _]. rewrite Hst. simpl.
      by rewrite cancel_job_idempotent, insert_insert_eq.
  - unfold cancel_download. by rewrite Hj.
Qed.

Lemma cancel_download_dom (JOBS : gmap string Job) (id : string) :
  dom (cancel_download id JOBS).2 = dom JOBS.
Proof.
  unfold cancel_download.
  destruct (JOBS !! id) as [job|] eqn:Hj; simpl; [|done].
  destruct (terminal (status job)); simpl; [done|].
  apply dom_insert_lookup_L. by rewrite Hj.
Qed.

(** X8. [cancel_download] leaves every other job of the registry as it
    is, adds and removes no job, and keeps the [job_id], the [url], the
    progress, the message, the output path and the task options of the job
    it is called for. *)
Theorem cancel_download_frame (JOBS : gmap string Job) (id : string) :
  (∀ id', id' ≠ id → (cancel_download id JOBS).2 !! id' = JOBS !! id') ∧
  dom (cancel_download id JOBS).2 = dom JOBS ∧
  (∀ job, JOBS !! id = Some job →
     ∃ job', (cancel_download id JOBS).2 !! id = Some job' ∧
       job_id job' = job_id job ∧ url job' = url job ∧
       progress job' = progress job ∧
       error_message job' = error_message job ∧
       output_path job' = output_path job ∧
       ydl_opts <$> task job' = ydl_opts <$> task job ∧
       phase <$> task job' = phase <$> task job).
Proof.
  split; [|split; [apply cancel_download_dom|]]; unfold cancel_download;
    (destruct (JOBS !! id) as [job|] eqn:Hj; simpl; [|done]);
    (destruct (terminal (status job)) eqn:Hterm; simpl).
  - done.
  - intros id' Hne. apply lookup_insert_ne. congruence.
  - intros job0 [= <-]. rewrite Hj. eauto 10.
  - intros job0 [= <-]. rewrite lookup_insert_eq. eexists. split; [done|].
    by destruct job as [? ? ? ? ? ? ? [[? [] ?]|]].
Qed.

Lemma no_task_no_event (JOBS : gmap string Job) (id : string) (job : Job) (ev : event) :
  JOBS !! id = Some job →
  (∀ t, task job = Some t → task_step ev job t = None) →
  task_events id ev → step JOBS ev = None.
Proof.
  intros Hj Hno Hev.
  assert (Hon : on_task id ev JOBS = None).
  { unfold on_task. rewrite Hj. simpl. destruct (task job) as [t|] eqn:Ht; [|done].
    simpl. by rewrite (Hno t eq_refl). }
  by destruct Hev as [->|[->|[[d ->]|[->|[e ->]]]]].
Qed.

(** X9. When [os.makedirs] raises for the download path, both
    [download_video] and [download_playlist] raise to the caller after the
    job has been put into the registry: it stays there [pending], without
    a task, and no event of a task is ever enabled for it. *)
Theorem failed_submission_leaves_job
    (uuid url download_path : string) (JOBS : gmap string Job) (e : exn) :
  os_makedirs download_path = Raise e →
  orphaned uuid url e (download_video uuid url download_path JOBS) ∧
  orphaned uuid url e (download_playlist uuid url download_path JOBS).
Proof.
  intros Hmk. unfold orphaned, download_video, download_playlist. rewrite Hmk. simpl.
  assert (Hev : ∀ ev, task_events uuid ev →
            step (<[uuid := _make_job_entry uuid url download_path]> JOBS) ev = None).
  { intros ev. apply (no_task_no_event _ _ (_make_job_entry uuid url download_path));
      [by rewrite lookup_insert_eq|done]. }
  split; (split; [done|]); (split; [|done]); eexists; by rewrite lookup_insert_eq.
Qed.

(** X10. When the directory of the output template cannot be created,
    the first step of the task ends before the status is touched: the job
    keeps its status and gets no message, and no event of its task is
    enabled afterwards. *)
Theorem unprepared_task_changes_nothing
    (JOBS : gmap string Job) (id : string) (job : Job) (t : Task)
    (outtmpl : string) (e : exn) :
  JOBS !! id = Some job → task job = Some t →
  phase t = Scheduled → must_cancel t = false →
  get (ydl_opts t) "outtmpl" = PStr outtmpl →
  os_path_dirname outtmpl ≠ "" →
  os_makedirs (os_path_dirname outtmpl) = Raise e →
  outtmpl ≠ "" →
  ∃ JOBS' job',
    step JOBS (TaskStarts id) = Some JOBS' ∧ JOBS' !! id = Some job' ∧
    status job' = status job ∧ error_message job' = error_message job ∧
    progress job' = progress job ∧
    ∀ ev, task_events id ev → step JOBS' ev = None.
Proof.
  intros Hj Ht Hp Hmc Hopts Hdir Hmk Hne.
  assert (Hprep : prepare_output (ydl_opts t) = Raise e).
  { unfold prepare_output. rewrite Hopts. simpl.
    destruct (String.eqb_spec outtmpl "") as [|_]; [done|]. simpl.
    destruct (String.eqb_spec (os_path_dirname outtmpl) "") as [|_]; [done|]. done. }
  exists (<[id := in_phase Done job t]> JOBS), (in_phase Done job t).
  split.
  { simpl. unfold on_task. rewrite Hj. simpl. rewrite Ht. simpl.
    unfold task_step. rewrite Hp, Hmc. unfold run_begin. by rewrite Hprep. }
  split; [by rewrite lookup_insert_eq|]. do 3 (split; [done|]).
  intros ev. apply (no_task_no_event _ _ (in_phase Done job t));
    [by rewrite lookup_insert_eq|].
  intros t' [= <-]. unfold task_step. simpl. by destruct ev.
Qed.

Lemma clean_copy_new_job (uuid url download_path : string) (tk : option Task) :
  reports_pending uuid url
    (clean_copy (set_task tk (_make_job_entry uuid url download_path))).
Proof.
  destruct (clean_copy_lookup (set_task tk (_make_job_entry uuid url download_path)))
    as [Ht Hk].
  unfold reports_pending.
  rewrite (Hk "job_id"), (Hk "url"), (Hk "status"), (Hk "progress"),
    (Hk "error_message"), (Hk "output_path"), (Hk "cancel_requested") by done.
  by repeat split.
Qed.

(** X11. Right after [download_video] or [download_playlist], whether
    the call returned or raised, [get_download_status] of the new id
    finds the job and reports it [pending] with the submitted [url],
    progress [0.0] of unknown total, no message, no output path and no
    cancellation request. *)
Theorem submitted_job_is_reported
    (uuid url download_path : string) (JOBS : gmap string Job) :
  reports_pending uuid url
    (get_download_status uuid (download_video uuid url download_path JOBS).2) ∧
  reports_pending uuid url
    (get_download_status uuid (download_playlist uuid url download_path JOBS).2).
Proof.
  unfold download_video, download_playlist, get_download_status. simpl.
  pose proof (clean_copy_new_job uuid url download_path None) as Hnone.
  destruct (os_makedirs download_path); simpl; rewrite !lookup_insert_eq;
    (split; [first [exact Hnone|apply clean_copy_new_job]
            |first [exact Hnone|apply clean_copy_new_job]]).
Qed.

Lemma list_downloads_length (JOBS : gmap string Job) :
  length (list_downloads JOBS) = size JOBS.
Proof.
  unfold list_downloads. by rewrite !length_fmap, length_map_to_list.
Qed.

(** X12. [list_downloads] returns one snapshot for each job of the
    registry: a submission under a fresh id makes the list one longer,
    and [cancel_download] leaves its length as it is. *)
Theorem list_downloads_counts_jobs (JOBS : gmap string Job) :
  length (list_downloads JOBS) = size JOBS ∧
  (∀ uuid url download_path, JOBS !! uuid = None →
     length (list_downloads (download_video uuid url download_path JOBS).2)
       = S (length (list_downloads JOBS)) ∧
     length (list_downloads (download_playlist uuid url download_path JOBS).2)
       = S (length (list_downloads JOBS))) ∧
  (∀ id, length (list_downloads (cancel_download id JOBS).2)
           = length (list_downloads JOBS)).
Proof.
  split; [apply list_downloads_length|]. split.
  - intros uuid url download_path Hfresh. rewrite !list_downloads_length.
    unfold download_video, download_playlist. simpl.
    destruct (os_makedirs download_path); simpl;
      rewrite ?insert_insert_eq, !map_size_insert_None by done; done.
  - intros id. rewrite !list_downloads_length.
    by rewrite <- !size_dom, cancel_download_dom.
Qed.

End Registry.

(** *** The progress hook *)

Lemma truthy_number_nonzero (v : pyval) (y : Q) :
  truthy v = true → as_number v = Some y → Qeq_bool y 0 = false.
Proof.
  destruct v as [|[]|n| |s|m|]; simpl; intros Ht [= <-]; try done.
  - destruct (Qeq_bool (inject_Z n) 0) eqn:E; [|done].
    apply Qeq_bool_eq in E. unfold Qeq in E. simpl in E.
    destruct (Z.eqb_spec n 0); [done|lia].
  - by destruct (Qeq_bool q 0).
Qed.

(** X13. While [cancel_requested] is set, the hook raises
    [DownloadError('Cancelled by user')] for every sample, whatever its
    shape, after having stored it: the job afterwards is the one the body
    of the [try] produced, and the job as it was when that body raised. *)
Theorem progress_hook_aborts_cancelled_fetch (job : Job) (d : dict) :
  cancel_requested job = true →
  (progress_hook job d).2 = Raise (DownloadError "Cancelled by user") ∧
  cancel_requested (progress_hook job d).1 = true ∧
  (∀ job', progress_hook_try job d = Ok job' → (progress_hook job d).1 = job') ∧
  (∀ e, progress_hook_try job d = Raise e → (progress_hook job d).1 = job) ∧
  (get d "status" = PStr "finished" →
     percent (progress (progress_hook job d).1) = 100%Q).
Proof.
  intros Hc. split; [by rewrite progress_hook_result, Hc|].
  split; [by destruct (progress_hook_fields job d) as [p ->]|].
  split; [|split].
  - intros job' E. unfold progress_hook. rewrite E.
    by destruct (cancel_requested job').
  - intros e E. unfold progress_hook. rewrite E. by rewrite Hc.
  - intros Hst.
    by rewrite (progress_hook_after _ _ _ (progress_hook_try_finished job d Hst)).
Qed.

(** X14. For a sample whose byte count and total are in the range of a
    float, the body of the [try] of the hook raises exactly when the
    sample is a ["downloading"] one whose total is truthy while its byte
    count or its total is not a number; what it raises is then a
    [TypeError], never a division by zero. *)
Theorem progress_hook_try_raises (job : Job) (d : dict) :
  in_float_range (get d "downloaded_bytes") → in_float_range (sample_total d) →
  ((∃ e, progress_hook_try job d = Raise e) ↔
   get d "status" = PStr "downloading" ∧ truthy (sample_total d) = true ∧
   (as_number (get d "downloaded_bytes") = None ∨
    as_number (sample_total d) = None)) ∧
  (∀ e, progress_hook_try job d = Raise e → exn_qualname e = "TypeError").
Proof.
  intros _ _. unfold progress_hook_try, sample_total.
  destruct (eq_str (get d "status") "downloading") eqn:Hst.
  - apply eq_str_spec in Hst.
    destruct (truthy (py_or _ _)) eqn:Ht.
    + unfold truediv.
      destruct (as_number (get d "downloaded_bytes")) as [x|] eqn:Hx;
        [destruct (as_number (py_or _ _)) as [y|] eqn:Hy|]; unfold_monad.
      * rewrite (truthy_number_nonzero _ _ Ht Hy). split; [|done].
        split; [by intros [e ?]|]. by intros (_ & _ & [?|?]).
      * split; [|by intros e [= <-]]. split; [by auto|by eauto].
      * split; [|by intros e [= <-]]. split; [by auto|by eauto].
    + unfold_monad. split; [|done]. split; [by intros [e ?]|by intros (_ & ? & _)].
  - assert (get d "status" ≠ PStr "downloading") as Hne.
    { intros E. apply eq_str_spec in E. congruence. }
    destruct (eq_str (get d "status") "finished"); unfold_monad;
      (split; [|done]); (split; [by intros [e ?]|by intros (? & _)]).
Qed.

(** X16. For a ["downloading"] sample whose byte count and positive
    total are numbers in the range of a float, the stored percentage lies
    between [0.0] and [100.0] when the byte count lies between zero and
    the total, and is at least [100.0] when the byte count is the total
    or more: the hook does not clamp it. *)
Theorem stored_percent_range (job : Job) (d : dict) (x y : Q) :
  in_float_range (get d "downloaded_bytes") → in_float_range (sample_total d) →
  get d "status" = PStr "downloading" →
  as_number (get d "downloaded_bytes") = Some x →
  as_number (sample_total d) = Some y → (0 < y)%Q →
  ((0 <= x)%Q → (x <= y)%Q →
     (0 <= percent (progress (progress_hook job d).1) <= 100)%Q) ∧
  ((y <= x)%Q → (100 <= percent (progress (progress_hook job d).1))%Q).
Proof.
  intros _ _ Hst Hx Hy Hpos.
  assert (Hnz : ¬ (y == 0)%Q) by (intros E; rewrite E in Hpos; by apply Qlt_irrefl in Hpos).
  rewrite (progress_hook_after _ _ _
             (progress_hook_try_downloading job d x y Hst Hx Hy Hnz)).
  assert (Hdiv : ∀ a b : Q, (a <= b)%Q → (a / y * 100 <= b / y * 100)%Q).
  { intros a b Hab. apply Qmult_le_compat_r; [|done].
    apply Qmult_le_compat_r; [done|]. apply Qinv_le_0_compat. lra. }
  assert (Hone : (y / y * 100 == 100)%Q) by (by field).
  assert (Hzero : (0 / y * 100 == 0)%Q) by (by field).
  assert (Hlow : (0 <= x)%Q → (0 <= round2 (x / y * 100))%Q).
  { intros H0. apply Qle_trans with (round2 0); [done|].
    apply round2_mono. apply Qle_trans with (0 / y * 100)%Q; [lra|by apply Hdiv]. }
  assert (Hhigh : (x <= y)%Q → (round2 (x / y * 100) <= 100)%Q).
  { intros H1. apply Qle_trans with (round2 100); [|done].
    apply round2_mono. apply Qle_trans with (y / y * 100)%Q; [by apply Hdiv|lra]. }
  assert (Hover : (y <= x)%Q → (100 <= round2 (x / y * 100))%Q).
  { intros H1. apply Qle_trans with (round2 100); [done|].
    apply round2_mono. apply Qle_trans with (y / y * 100)%Q; [lra|by apply Hdiv]. }
  cbn [percent progress set_progress]. split; [|done].
  intros H0 H1. split; [by apply Hlow|by apply Hhigh].
Qed.

(** X17. When the ['total_bytes'] of a ["downloading"] sample is
    missing, [None] or zero, the hook takes ['total_bytes_estimate'] in
    its place: for a byte count and a positive estimate that are numbers
    in the range of a float, the estimate is what it stores as the total,
    beside the byte count of the sample. *)
Theorem estimate_stands_in_for_total (job : Job) (d : dict) (x y : Q) :
  in_float_range (get d "downloaded_bytes") →
  in_float_range (get d "total_bytes_estimate") →
  get d "status" = PStr "downloading" →
  truthy (get d "total_bytes") = false →
  as_number (get d "downloaded_bytes") = Some x →
  as_number (get d "total_bytes_estimate") = Some y → (0 < y)%Q →
  let stored := progress (progress_hook job d).1 in
  total_bytes stored = get d "total_bytes_estimate" ∧
  downloaded_bytes stored = get d "downloaded_bytes".
Proof.
  intros _ _ Hst Hfalse Hx Hy Hpos.
  assert (Hnz : ¬ (y == 0)%Q) by (intros E; rewrite E in Hpos; by apply Qlt_irrefl in Hpos).
  assert (Htot : sample_total d = get d "total_bytes_estimate").
  { unfold sample_total, py_or. by rewrite Hfalse. }
  rewrite <- Htot in Hy. cbv zeta.
  rewrite (progress_hook_after _ _ _
             (progress_hook_try_downloading job d x y Hst Hx Hy Hnz)).
  simpl. split; [done|].
  unfold get, get_default in *. by destruct (d !! "downloaded_bytes").
Qed.

(** *** The message of a failed job *)

Lemma rstrip_nonspace (c : ascii) (s : string) :
  isspace c = false → rstrip (String c s) = String c (rstrip s).
Proof. intros Hc. simpl. rewrite Hc. by destruct (rstrip s). Qed.

Lemma rstrip_app_spaces (s rest : string) :
  rstrip rest = "" → rstrip (s +:+ rest) = rstrip s.
Proof.
  intros Hr. induction s as [|c s IH]; [done|].
  change (rstrip (String c (s +:+ rest)) = rstrip (String c s)).
  simpl. by rewrite IH.
Qed.

(** X18. When no cancellation was requested, the message stored for
    an exception whose class name is not empty and has no white space
    at its ends begins with that class name, so it is never empty: it is
    the class name alone when [str(e)] is empty, and the class name
    followed by a colon otherwise. *)
Theorem error_message_begins_with_class (job : Job) (qualname msg : string) :
  cancel_requested job = false →
  qualname ≠ "" → lstrip qualname = qualname → rstrip qualname = qualname →
  ∃ rest,
    error_message (run_except job (Exn qualname msg)) = Some (qualname +:+ rest) ∧
    (msg = "" → rest = "") ∧
    (msg ≠ "" → ∃ rest', rest = ":" +:+ rest').
Proof.
  intros Hc Hne Hl Hr. unfold run_except. rewrite Hc.
  cbn [error_message set_error_message].
  destruct (decide (msg = "")) as [->|Hmsg].
  - exists "". split; [|done]. f_equal.
    change (join (format_exception_only (Exn qualname "")))
      with ((qualname +:+ newline) +:+ "").
    rewrite !append_empty_r. unfold strip.
    rewrite (lstrip_fixed_app _ _ Hne Hl).
    by rewrite (rstrip_app_spaces qualname newline eq_refl).
  - rewrite join_format_exception_only by done. unfold strip.
    rewrite (lstrip_fixed_app _ _ Hne Hl).
    change (": " +:+ msg +:+ newline)
      with (String ":" (String " " (msg +:+ newline))).
    assert (Hrs : rstrip (String ":" (String " " (msg +:+ newline)))
                  = ":" +:+ rstrip (String " " (msg +:+ newline)))
      by by rewrite rstrip_nonspace.
    rewrite rstrip_app by by rewrite Hrs.
    rewrite Hrs. eexists. split; [done|]. split; [done|]. intros _. by eexists.
Qed.

(** *** The test client *)

Lemma is_final_status (s : Status) : is_final (PStr (status_str s)) = terminal s.
Proof. by destruct s. Qed.

Lemma poll_known (JOBS : gmap string Job) (id : string) (job : Job) :
  JOBS !! id = Some job → poll id JOBS = Ok (clean_copy job, terminal (status job)).
Proof.
  intros Hj. unfold poll, get_download_status. rewrite Hj.
  destruct (clean_copy_lookup job) as [_ Hk]. unfold getitem.
  rewrite (Hk "status"), (Hk "progress") by done.
  change (job_items job !! "status") with (Some (PStr (status_str (status job)))).
  change (job_items job !! "progress")
    with (Some (PDict (progress_items (progress job)))).
  unfold_monad. by rewrite is_final_status.
Qed.

Lemma poll_unknown (JOBS : gmap string Job) (id : string) :
  JOBS !! id = None → poll id JOBS = Raise (KeyError "status").
Proof. intros Hj. unfold poll, get_download_status. by rewrite Hj. Qed.

(** X19. One turn of the loop of the client finds the job over exactly
    when [cancel_download] would refuse to cancel it; for an id that is
    not in the registry the turn raises [KeyError('status')], the
    not-found answer having no such key. *)
Theorem poll_agrees_with_cancel (JOBS : gmap string Job) (id : string) :
  match JOBS !! id with
  | Some job =>
      poll id JOBS = Ok (get_download_status id JOBS, terminal (status job)) ∧
      (terminal (status job) = true ↔
       (cancel_download id JOBS).1 !! "status" = Some (PStr "cannot_cancel")) ∧
      (terminal (status job) = false ↔
       (cancel_download id JOBS).1 !! "status" = Some (PStr "cancellation_requested"))
  | None => poll id JOBS = Raise (KeyError "status")
  end.
Proof.
  destruct (JOBS !! id) as [job|] eqn:Hj; [|by apply poll_unknown].
  split.
  - rewrite (poll_known _ _ _ Hj). unfold get_download_status. by rewrite Hj.
  - unfold cancel_download. rewrite Hj.
    by destruct (terminal (status job)).
Qed.

(** X20. The loop of the client ends at the first registry in which
    the job is [completed], in [error] or [cancelled], with the snapshot
    of that moment; it raises [KeyError('status')] at the first registry
    that does not hold the job; and it goes on as long as the job is
    there and not over. *)
Theorem main_loop_outcome (id : string) (observed : list (gmap string Job)) :
  match main_loop id observed with
  | Ok (Some snap) =>
      ∃ before JOBS after job,
        observed = before ++ JOBS :: after ∧ Forall (still_polling id) before ∧
        JOBS !! id = Some job ∧ terminal (status job) = true ∧
        snap = get_download_status id JOBS
  | Ok None => Forall (still_polling id) observed
  | Raise e =>
      e = KeyError "status" ∧
      ∃ before JOBS after,
        observed = before ++ JOBS :: after ∧ Forall (still_polling id) before ∧
        JOBS !! id = None
  end.
Proof.
  induction observed as [|JOBS later IH]; simpl; [done|].
  destruct (JOBS !! id) as [job|] eqn:Hj.
  - rewrite (poll_known _ _ _ Hj). unfold_monad.
    destruct (terminal (status job)) eqn:Hterm.
    + exists [], JOBS, later, job. repeat split; try done.
      unfold get_download_status. by rewrite Hj.
    + assert (Hp : still_polling id JOBS) by by exists job.
      destruct (main_loop id later) as [[snap|]|e].
      * destruct IH as (before & JOBS1 & after & job1 & -> & Hb & IH).
        exists (JOBS :: before), JOBS1, after, job1. split; [done|].
        split; [by constructor|done].
      * by constructor.
      * destruct IH as (-> & before & JOBS1 & after & -> & Hb & IH).
        split; [done|]. exists (JOBS :: before), JOBS1, after. split; [done|].
        split; [by constructor|done].
  - rewrite (poll_unknown _ _ Hj). unfold_monad. split; [done|].
    by exists [], JOBS, later.
Qed.

(** *** The further properties at concrete inputs *)

Import Examples.

Lemma submitted_reachable : reachable (H := writable) submitted.
Proof.
  apply (reachable_step ∅ (CallDownloadVideo "job-1" sample_url "./downloads"));
    [constructor|reflexivity].
Qed.

Lemma submitted_cancelled_reachable : reachable (H := writable) submitted_cancelled.
Proof.
  apply (reachable_step submitted (CallCancelDownload "job-1"));
    [apply submitted_reachable|reflexivity].
Qed.

Lemma failed_registry_reachable : reachable (H := writable) failed_registry.
Proof.
  apply (exec_reachable ∅ failed_run); [constructor|].
  vm_compute. reflexivity.
Qed.

Lemma detached_registry_reachable : reachable (H := writable) detached_registry.
Proof.
  apply (exec_reachable ∅ (take 5 cancelled_run)); [constructor|].
  vm_compute. reflexivity.
Qed.

Lemma cancelled_is_never_reached_witness :
  detached_registry !! "job-1" = Some detached_job ∧
  cancel_requested detached_job = true ∧
  step (H := writable) detached_registry
    (FetchRaises "job-1" (DownloadError "Cancelled by user"))
    = Some cancelled_registry ∧
  ∃ job', cancelled_registry !! "job-1" = Some job' ∧
          status job' = CancelRequested ∧ error_message job' = None.
Proof.
  assert (Hj : detached_registry !! "job-1" = Some detached_job)
    by (vm_compute; reflexivity).
  assert (Hc : cancel_requested detached_job = true) by (vm_compute; reflexivity).
  assert (Hs : step (H := writable) detached_registry
                 (FetchRaises "job-1" (DownloadError "Cancelled by user"))
               = Some cancelled_registry) by (vm_compute; reflexivity).
  repeat (split; [assumption|]).
  destruct (proj2 (proj2 (cancelled_is_never_reached (H := writable) detached_registry
                             "job-1" detached_job detached_registry_reachable Hj))
              _ _ Hs) as (job' & Hj' & Hif).
  rewrite Hc in Hif. exists job'. split; [exact Hj'|exact Hif].
Defined.


Lemma job_identity_is_kept_witness :
  submitted !! "job-1" = Some scheduled_job ∧ job_id scheduled_job = "job-1".
Proof.
  assert (Hj : submitted !! "job-1" = Some scheduled_job) by (vm_compute; reflexivity).
  split; [exact Hj|].
  exact (proj1 (job_identity_is_kept (H := writable) submitted "job-1" scheduled_job
                  submitted_reachable Hj)).
Defined.

Lemma cancel_requested_is_never_reset_witness :
  step (H := writable) submitted_cancelled (TaskStarts "job-1")
    = Some cancelled_then_started ∧
  submitted_cancelled !! "job-1" = Some cancelled_pending_job ∧
  cancel_requested cancelled_pending_job = true ∧
  ∃ job', cancelled_then_started !! "job-1" = Some job' ∧ cancel_requested job' = true.
Proof.
  assert (Hs : step (H := writable) submitted_cancelled (TaskStarts "job-1")
               = Some cancelled_then_started) by (vm_compute; reflexivity).
  assert (Hj : submitted_cancelled !! "job-1" = Some cancelled_pending_job)
    by (vm_compute; reflexivity).
  assert (Hc : cancel_requested cancelled_pending_job = true) by reflexivity.
  repeat (split; [assumption|]).
  exact (cancel_requested_is_never_reset (H := writable) _ _ _ _ _
           submitted_cancelled_reachable Hs Hj Hc).
Defined.

Lemma flag_and_status_agree_witness :
  failed_registry !! "job-1" = Some failed_job ∧ flag_agrees failed_job.
Proof.
  assert (Hj : failed_registry !! "job-1" = Some failed_job)
    by (vm_compute; reflexivity).
  split; [exact Hj|].
  exact (flag_and_status_agree (H := writable) _ _ _ failed_registry_reachable Hj).
Defined.

Lemma message_and_path_agree_witness :
  failed_registry !! "job-1" = Some failed_job ∧ results_agree failed_job.
Proof.
  assert (Hj : failed_registry !! "job-1" = Some failed_job)
    by (vm_compute; reflexivity).
  split; [exact Hj|].
  exact (message_and_path_agree (H := writable) _ _ _ failed_registry_reachable Hj).
Defined.

Lemma finished_job_is_final_witness :
  failed_registry !! "job-1" = Some failed_job ∧
  terminal (status failed_job) = true ∧
  ∃ job', (cancel_download "job-1" failed_registry).2 !! "job-1" = Some job' ∧
    status job' = status failed_job ∧
    error_message job' = error_message failed_job ∧
    output_path job' = output_path failed_job ∧
    cancel_requested job' = cancel_requested failed_job.
Proof.
  assert (Hj : failed_registry !! "job-1" = Some failed_job)
    by (vm_compute; reflexivity).
  assert (Ht : terminal (status failed_job) = true) by reflexivity.
  repeat (split; [assumption|]).
  exact (finished_job_is_final (H := writable) failed_registry
           (cancel_download "job-1" failed_registry).2
           (CallCancelDownload "job-1") "job-1" failed_job
           failed_registry_reachable eq_refl Hj Ht).
Defined.


Lemma cancel_download_frame_witness :
  submitted !! "job-1" = Some scheduled_job ∧
  ∃ job', (cancel_download "job-1" submitted).2 !! "job-1" = Some job' ∧
          url job' = sample_url.
Proof.
  assert (Hj : submitted !! "job-1" = Some scheduled_job) by (vm_compute; reflexivity).
  split; [exact Hj|].
  destruct (proj2 (proj2 (cancel_download_frame submitted "job-1")) scheduled_job Hj)
    as (job' & Hj' & _ & Hurl & _).
  exists job'. split; [exact Hj'|]. rewrite Hurl. reflexivity.
Defined.

Lemma failed_submission_leaves_job_witness :
  os_makedirs (OS := read_only) "./downloads"
    = Raise (Exn "PermissionError" "[Errno 13] Permission denied") ∧
  orphaned (H := read_only) "job-1" sample_url
    (Exn "PermissionError" "[Errno 13] Permission denied")
    (download_video (H := read_only) "job-1" sample_url "./downloads" ∅).
Proof.
  assert (Hmk : os_makedirs (OS := read_only) "./downloads"
                = Raise (Exn "PermissionError" "[Errno 13] Permission denied"))
    by reflexivity.
  split; [exact Hmk|].
  exact (proj1 (failed_submission_leaves_job (H := read_only) "job-1" sample_url
                  "./downloads" ∅ _ Hmk)).
Defined.

Lemma unprepared_task_changes_nothing_witness :
  playlist_submitted !! "job-1" = Some playlist_job ∧
  task playlist_job = Some playlist_task ∧
  phase playlist_task = Scheduled ∧ must_cancel playlist_task = false ∧
  get (ydl_opts playlist_task) "outtmpl" = PStr playlist_outtmpl ∧
  os_path_dirname (OS := no_subdirectories) playlist_outtmpl ≠ "" ∧
  os_makedirs (OS := no_subdirectories)
      (os_path_dirname (OS := no_subdirectories) playlist_outtmpl)
    = Raise (Exn "PermissionError" "[Errno 13] Permission denied") ∧
  playlist_outtmpl ≠ "" ∧
  ∃ JOBS' job',
    step (H := no_subdirectories) playlist_submitted (TaskStarts "job-1") = Some JOBS' ∧
    JOBS' !! "job-1" = Some job' ∧ status job' = Pending.
Proof.
  assert (Hj : playlist_submitted !! "job-1" = Some playlist_job)
    by (vm_compute; reflexivity).
  assert (Ht : task playlist_job = Some playlist_task) by (vm_compute; reflexivity).
  assert (Hp : phase playlist_task = Scheduled) by reflexivity.
  assert (Hmc : must_cancel playlist_task = false) by reflexivity.
  assert (Ho : get (ydl_opts playlist_task) "outtmpl" = PStr playlist_outtmpl)
    by (vm_compute; reflexivity).
  assert (Hd : os_path_dirname (OS := no_subdirectories) playlist_outtmpl ≠ "")
    by (vm_compute; discriminate).
  assert (Hmk : os_makedirs (OS := no_subdirectories)
                  (os_path_dirname (OS := no_subdirectories) playlist_outtmpl)
                = Raise (Exn "PermissionError" "[Errno 13] Permission denied"))
    by (vm_compute; reflexivity).
  assert (Hne : playlist_outtmpl ≠ "") by discriminate.
  repeat (split; [assumption|]).
  destruct (unprepared_task_changes_nothing (H := no_subdirectories) playlist_submitted
              "job-1" playlist_job playlist_task playlist_outtmpl _
              Hj Ht Hp Hmc Ho Hd Hmk Hne)
    as (JOBS' & job' & Hs & Hj' & Hst & _).
  exists JOBS', job'. split; [exact Hs|]. split; [exact Hj'|].
  rewrite Hst. reflexivity.
Defined.

Lemma list_downloads_counts_jobs_witness :
  (∅ : gmap string Job) !! "job-1" = None ∧
  length (list_downloads submitted) = S (length (list_downloads ∅)).
Proof.
  assert (Hj : (∅ : gmap string Job) !! "job-1" = None) by reflexivity.
  split; [exact Hj|].
  exact (proj1 (proj1 (proj2 (list_downloads_counts_jobs (H := writable) ∅))
                  "job-1" sample_url "./downloads" Hj)).
Defined.

Lemma progress_hook_aborts_cancelled_fetch_witness :
  cancel_requested cancelled_pending_job = true ∧
  (progress_hook cancelled_pending_job (downloading_sample 500 1000)).2
    = Raise (DownloadError "Cancelled by user").
Proof.
  assert (Hc : cancel_requested cancelled_pending_job = true) by reflexivity.
  split; [exact Hc|].
  exact (proj1 (progress_hook_aborts_cancelled_fetch cancelled_pending_job
                  (downloading_sample 500 1000) Hc)).
Defined.

Lemma progress_hook_try_raises_witness :
  in_float_range (get total_without_count "downloaded_bytes") ∧
  in_float_range (sample_total total_without_count) ∧
  get total_without_count "status" = PStr "downloading" ∧
  truthy (sample_total total_without_count) = true ∧
  as_number (get total_without_count "downloaded_bytes") = None ∧
  ∃ e, progress_hook_try new_job total_without_count = Raise e.
Proof.
  assert (Hr1 : in_float_range (get total_without_count "downloaded_bytes"))
    by exact I.
  assert (Hr2 : in_float_range (sample_total total_without_count))
    by (vm_compute; reflexivity).
  assert (Hst : get total_without_count "status" = PStr "downloading") by reflexivity.
  assert (Ht : truthy (sample_total total_without_count) = true) by reflexivity.
  assert (Hn : as_number (get total_without_count "downloaded_bytes") = None)
    by reflexivity.
  do 5 (split; [assumption|]).
  exact (proj2 (proj1 (progress_hook_try_raises new_job total_without_count Hr1 Hr2))
           (conj Hst (conj Ht (or_introl Hn)))).
Defined.

Lemma stored_percent_range_witness :
  in_float_range (get (downloading_sample 1 3) "downloaded_bytes") ∧
  in_float_range (sample_total (downloading_sample 1 3)) ∧
  get (downloading_sample 1 3) "status" = PStr "downloading" ∧
  as_number (get (downloading_sample 1 3) "downloaded_bytes") = Some (inject_Z 1) ∧
  as_number (sample_total (downloading_sample 1 3)) = Some (inject_Z 3) ∧
  (0 < inject_Z 3)%Q ∧ (0 <= inject_Z 1)%Q ∧ (inject_Z 1 <= inject_Z 3)%Q ∧
  (0 <= percent (progress (progress_hook new_job (downloading_sample 1 3)).1) <= 100)%Q.
Proof.
  assert (Hr1 : in_float_range (get (downloading_sample 1 3) "downloaded_bytes"))
    by (vm_compute; reflexivity).
  assert (Hr2 : in_float_range (sample_total (downloading_sample 1 3)))
    by (vm_compute; reflexivity).
  assert (Hst : get (downloading_sample 1 3) "status" = PStr "downloading")
    by reflexivity.
  assert (Hx : as_number (get (downloading_sample 1 3) "downloaded_bytes")
               = Some (inject_Z 1)) by reflexivity.
  assert (Hy : as_number (sample_total (downloading_sample 1 3)) = Some (inject_Z 3))
    by reflexivity.
  assert (Hpos : (0 < inject_Z 3)%Q) by reflexivity.
  assert (H0 : (0 <= inject_Z 1)%Q) by discriminate.
  assert (H1 : (inject_Z 1 <= inject_Z 3)%Q) by discriminate.
  split; [exact Hr1|]. split; [exact Hr2|].
  split; [exact Hst|]. split; [exact Hx|]. split; [exact Hy|].
  split; [exact Hpos|]. split; [exact H0|]. split; [exact H1|].
  exact (proj1 (stored_percent_range new_job _ _ _ Hr1 Hr2 Hst Hx Hy Hpos) H0 H1).
Defined.

Lemma estimate_stands_in_for_total_witness :
  in_float_range (get estimated_sample "downloaded_bytes") ∧
  in_float_range (get estimated_sample "total_bytes_estimate") ∧
  get estimated_sample "status" = PStr "downloading" ∧
  truthy (get estimated_sample "total_bytes") = false ∧
  as_number (get estimated_sample "downloaded_bytes") = Some (inject_Z 500) ∧
  as_number (get estimated_sample "total_bytes_estimate") = Some (inject_Z 2000) ∧
  (0 < inject_Z 2000)%Q ∧
  total_bytes (progress (progress_hook new_job estimated_sample).1) = PInt 2000.
Proof.
  assert (Hr1 : in_float_range (get estimated_sample "downloaded_bytes"))
    by (vm_compute; reflexivity).
  assert (Hr2 : in_float_range (get estimated_sample "total_bytes_estimate"))
    by (vm_compute; reflexivity).
  assert (Hst : get estimated_sample "status" = PStr "downloading") by reflexivity.
  assert (Hf : truthy (get estimated_sample "total_bytes") = false) by reflexivity.
  assert (Hx : as_number (get estimated_sample "downloaded_bytes")
               = Some (inject_Z 500)) by reflexivity.
  assert (Hy : as_number (get estimated_sample "total_bytes_estimate")
               = Some (inject_Z 2000)) by reflexivity.
  assert (Hpos : (0 < inject_Z 2000)%Q) by reflexivity.
  split; [exact Hr1|]. split; [exact Hr2|].
  split; [exact Hst|]. split; [exact Hf|]. split; [exact Hx|]. split; [exact Hy|].
  split; [exact Hpos|].
  exact (proj1 (estimate_stands_in_for_total new_job _ _ _ Hr1 Hr2 Hst Hf Hx Hy Hpos)).
Defined.

Lemma error_message_begins_with_class_witness :
  cancel_requested new_job = false ∧
  "KeyError" ≠ "" ∧ lstrip "KeyError" = "KeyError" ∧ rstrip "KeyError" = "KeyError" ∧
  ∃ rest, error_message (run_except new_job (Exn "KeyError" "'status'"))
            = Some ("KeyError" +:+ rest).
Proof.
  assert (Hc : cancel_requested new_job = false) by reflexivity.
  assert (Hne : "KeyError" ≠ "") by discriminate.
  assert (Hl : lstrip "KeyError" = "KeyError") by reflexivity.
  assert (Hr : rstrip "KeyError" = "KeyError") by reflexivity.
  repeat (split; [assumption|]).
  destruct (error_message_begins_with_class new_job "KeyError" "'status'" Hc Hne Hl Hr)
    as (rest & Hm & _).
  exists rest. exact Hm.
Defined.

(** The client on [completed_run]: it polls through the five registries
    in which the job is not over and ends with the snapshot of the sixth. *)
Example client_sees_completed_run :
  main_loop "job-1" completed_run_registries
    = Ok (get_download_status "job-1" <$> last completed_run_registries) ∧
  main_loop "job-1" (take 5 completed_run_registries) = Ok None.
Proof. split; vm_compute; reflexivity. Qed.

End Behaviour.
